(** * Climate-Agri Shield: scenario simulation and risk labelling

    A shallow embedding of the decision logic of [app.py]: the sidebar
    sliders that deliver the shock, the data preparation that turns the
    latest record of a country into the two model inputs, the two model
    calls, and the conjunctive three-tier labelling rule.

    Numbers.  Shocks and probabilities are rationals ([Q]): every
    finite binary64 number is one, and the script only compares them.
    The cells of the data set are int64 or float64 values, and the two
    in-place updates of the feature dicts are binary64 operations,
    rounded to nearest even, taken from the reference semantics
    [spec_float] of the Standard Library.

    Dictionaries and the pandas row are [gmap string cell]; exceptions
    are an explicit result type; the two models are pure functions.
    Their invocations, and the widgets that display what the run has
    computed, are recorded in a log that is threaded through the
    Predictions tab. *)

From Stdlib Require Import QArith ZArith List String Lqa.
From Stdlib Require Import Floats.SpecFloat.
From stdpp Require Import base gmap strings list sorting.

Local Open Scope Q_scope.

(** ** Python-level primitives *)

Module Py.

(** The exceptions the modelled fragment can raise. *)
Inductive exn : Type :=
| IndexError                 (* positional index out of bounds *)
| KeyError (k : string)      (* missing key in a dict or a Series *)
| ModelError (msg : string)  (* anything raised inside a model *)
| StreamlitAPIException.     (* a widget refusing its argument *)

Inductive result (A : Type) : Type :=
| Ok (a : A)
| Raise (e : exn).
Arguments Ok {A} a.
Arguments Raise {A} e.

(** Sequencing: the first exception raised aborts the rest. *)
#[export] Instance result_bind : MBind result := λ A B k r,
  match r with
  | Ok a => k a
  | Raise e => Raise e
  end.

(** [x >= y], [x > y] and [x <= y] on numbers. *)
Definition Qgeb (x y : Q) : bool := Qle_bool y x.
Definition Qgtb (x y : Q) : bool := negb (Qle_bool x y).
Definition Qleb (x y : Q) : bool := Qle_bool x y.

(** binary64 arithmetic: addition, multiplication and division rounded
    to nearest, ties to even, with signed zeros, infinities and NaN. *)
Definition f64_add : spec_float → spec_float → spec_float := SFadd 53 1024.
Definition f64_mul : spec_float → spec_float → spec_float := SFmul 53 1024.
Definition f64_div : spec_float → spec_float → spec_float := SFdiv 53 1024.

(** [float(z)] for an integer [z]: the nearest binary64 number. *)
Definition Z2F (z : Z) : spec_float := binary_normalize 53 1024 z 0 false.

(** The float a rational stands for: the quotient of its numerator and
    denominator, which is the number itself when it is a binary64
    number, and Python's [int / int] when both are integers. *)
Definition Q2F (q : Q) : spec_float :=
  f64_div (Z2F (Qnum q)) (Z2F (Zpos (Qden q))).

(** The exact value of a finite float. *)
Definition F2Q (f : spec_float) : option Q :=
  match f with
  | S754_zero _ => Some 0
  | S754_finite s m e =>
      let v := match e with
               | Zneg p => Zpos m # (2 ^ p)%positive
               | _ => inject_Z (Zpos m * 2 ^ e)%Z
               end in
      Some (if s then - v else v)
  | S754_infinity _ | S754_nan => None
  end.

(** A numeric cell of the data set: a value of an int64 column or of a
    float64 column. *)
Inductive cell : Type :=
| IntCell (z : Z)
| FloatCell (f : spec_float).

(** The exact value of a cell, when it is finite. *)
Definition cell_value (c : cell) : option Q :=
  match c with
  | IntCell z => Some (inject_Z z)
  | FloatCell f => F2Q f
  end.

(** The float an arithmetic operation with a float sees in a cell. *)
Definition to_float (c : cell) : spec_float :=
  match c with
  | IntCell z => Z2F z
  | FloatCell f => f
  end.

(** [d[k]] on a dict or a Series. *)
Definition getitem (d : gmap string cell) (k : string) : result cell :=
  match d !! k with
  | Some v => Ok v
  | None => Raise (KeyError k)
  end.

(** [{f: src[f] for f in fs}], built left to right into [acc]. *)
Fixpoint dict_comp (src : gmap string cell) (fs : list string)
    (acc : gmap string cell) : result (gmap string cell) :=
  match fs with
  | [] => Ok acc
  | f :: fs' =>
      match src !! f with
      | Some v => dict_comp src fs' (<[f := v]> acc)
      | None => Raise (KeyError f)
      end
  end.

(** [d[k] += x] and [d[k] *= x] for a float [x]: the entry becomes a
    float64, an int64 entry being converted first. *)
Definition iadd (d : gmap string cell) (k : string) (x : spec_float)
    : result (gmap string cell) :=
  v ← getitem d k; Ok (<[k := FloatCell (f64_add (to_float v) x)]> d).

Definition imul (d : gmap string cell) (k : string) (x : spec_float)
    : result (gmap string cell) :=
  v ← getitem d k; Ok (<[k := FloatCell (f64_mul (to_float v) x)]> d).

(** [a[i]] on a sequence, for a non-negative [i]. *)
Definition index {A} (a : list A) (i : nat) : result A :=
  match a !! i with
  | Some v => Ok v
  | None => Raise IndexError
  end.

(** [a.iloc[-1]]: the last row, [IndexError] on an empty frame. *)
Definition iloc_last {A} (a : list A) : result A :=
  match last a with
  | Some v => Ok v
  | None => Raise IndexError
  end.

End Py.
Import Py.

(** ** Risk labelling (the conditional chain of the Predictions tab) *)

Inductive label : Type := HIGH_RISK | LOW_RISK | STABLE.

Definition risk_label (risk_prob temp_delta gdp_delta : Q) : label :=
  if Qgeb risk_prob 0.65 && Qgtb temp_delta 0 then HIGH_RISK
  else if Qleb risk_prob 0.35 && Qleb temp_delta 0 && Qgeb gdp_delta 10
  then LOW_RISK
  else STABLE.

Definition color (l : label) : string :=
  match l with
  | HIGH_RISK => "#D7263D"
  | LOW_RISK => "#1B9E77"
  | STABLE => "#E6A700"
  end.

(** The two branch conditions, as propositions over the rationals. *)
Definition high_risk_cond (p t : Q) : Prop := 0.65 <= p ∧ 0 < t.
Definition low_risk_cond (p t g : Q) : Prop := p <= 0.35 ∧ t <= 0 ∧ 10 <= g.

(** ** Data, features and models *)

(** One line of the data set: the country, the year and the numeric
    columns by name. *)
Record row : Type := { Country : string; Year : Z; cells : gmap string cell }.

Definition RISK_FEATURES : list string :=
  [ "Area_Harvested"; "Production_Tonnes"; "Avg_Temp"; "Temp_Volatility";
    "GDP_current_US"; "political_stability_estimate"; "Inflation";
    "CO2_emisions"; "Agri_Land_Percent"; "Forest_Land_Percent"; "population" ].

Definition YIELD_FEATURES : list string :=
  [ "Avg_Temp"; "Temp_Volatility"; "GDP_current_US" ].

(** The two loaded models: pure functions from a one-row frame to the
    class-probability matrix, resp. the prediction vector, or to an
    exception. *)
Record models : Type := {
  predict_proba : list (gmap string cell) → result (list (list Q));
  predict : list (gmap string cell) → result (list Q)
}.

(** ** Sidebar (the two sliders) *)

(** [st.slider(label, min_value, max_value, value, step)]: the widget
    starts at [value]; once moved it sits on one of the stops
    [min_value + k * step] that do not exceed [max_value].  A position
    past the end of the track is no input at all. *)
Definition slider (min_value max_value value step : Q) (pos : option nat)
    : option Q :=
  match pos with
  | None => Some value
  | Some k =>
      let v := min_value + inject_Z (Z.of_nat k) * step in
      if Qle_bool v max_value then Some v else None
  end.

(** The same widget called with integer arguments returns an integer. *)
Definition slider_int (min_value max_value value step : Z) (pos : option nat)
    : option Z :=
  match pos with
  | None => Some value
  | Some k =>
      let v := (min_value + Z.of_nat k * step)%Z in
      if (v <=? max_value)%Z then Some v else None
  end.

Definition temp_delta_slider : option nat → option Q :=
  slider (-2.0) 4.0 0.0 0.5.

Definition gdp_delta_slider : option nat → option Z :=
  slider_int (-20) 30 0 5.

(** ** Data preparation *)

(** [sort_values("Year")], ascending, by insertion. *)
Fixpoint insert_by_Year (r : row) (l : list row) : list row :=
  match l with
  | [] => [r]
  | r' :: l' =>
      if (Year r <=? Year r')%Z then r :: l else r' :: insert_by_Year r l'
  end.

Definition sort_values_Year (l : list row) : list row :=
  foldr insert_by_Year [] l.

(** [latest = df[df["Country"] == country].sort_values("Year").iloc[-1]] *)
Definition latest_of (df : list row) (country : string) : result row :=
  iloc_last (sort_values_Year (filter (λ r, Country r = country) df)).

(** [1 + gdp_delta / 100], in floats. *)
Definition gdp_factor (gdp_delta : Q) : spec_float :=
  f64_add (Z2F 1) (f64_div (Q2F gdp_delta) (Z2F 100)).

(** The two dict comprehensions followed by the four in-place updates. *)
Definition build_features (latest : gmap string cell) (temp_delta gdp_delta : Q)
    : result (gmap string cell * gmap string cell) :=
  risk_input ← dict_comp latest RISK_FEATURES ∅;
  yield_input ← dict_comp latest YIELD_FEATURES ∅;
  risk_input ← iadd risk_input "Avg_Temp" (Q2F temp_delta);
  risk_input ← imul risk_input "GDP_current_US" (gdp_factor gdp_delta);
  yield_input ← iadd yield_input "Avg_Temp" (Q2F temp_delta);
  yield_input ← imul yield_input "GDP_current_US" (gdp_factor gdp_delta);
  Ok (risk_input, yield_input).

(** Up to [risk_df] and [yield_df], the one-row frames. *)
Definition data_prep (df : list row) (country : string)
    (temp_delta gdp_delta : Q)
    : result (list (gmap string cell) * list (gmap string cell)) :=
  latest ← latest_of df country;
  inputs ← build_features (cells latest) temp_delta gdp_delta;
  Ok ([inputs.1], [inputs.2]).

(** ** Predictions: model calls and widgets, with a log *)

(** The calls of the Predictions tab that carry data of the run: the
    two model calls, and the widgets showing the label in its colour
    ([st.markdown]), the probability ([st.progress], [st.caption]), the
    yield ([st.metric]) and the scenario ([st.info]). *)
Inductive call : Type :=
| PredictProba (X : list (gmap string cell))
| Predict (X : list (gmap string cell))
| Markdown (l : label) (c : string)
| Progress (value : Q)
| Caption (risk_prob : Q)
| Metric (yield_pred : Q)
| Info (temp_delta gdp_delta : Q).

(** A computation that may raise and that extends the log of the calls
    made so far. *)
Definition M (A : Type) : Type := list call → result A * list call.

#[export] Instance M_ret : MRet M := λ A a log, (Ok a, log).

#[export] Instance M_bind : MBind M := λ A B k m log,
  match m log with
  | (Ok a, log') => k a log'
  | (Raise e, log') => (Raise e, log')
  end.

Definition lift {A} (r : result A) : M A := λ log, (r, log).

Definition call_predict_proba (md : models) (X : list (gmap string cell))
    : M (list (list Q)) :=
  λ log, (predict_proba md X, log ++ [PredictProba X]).

Definition call_predict (md : models) (X : list (gmap string cell))
    : M (list Q) :=
  λ log, (predict md X, log ++ [Predict X]).

(** A widget that accepts its argument. *)
Definition show (c : call) : M unit := λ log, (Ok tt, log ++ [c]).

(** [st.progress(value)] for a float: a value outside [0.0, 1.0] is
    refused with [StreamlitAPIException]. *)
Definition st_progress (value : Q) : M unit := λ log,
  if Qleb 0 value && Qleb value 1
  then (Ok tt, log ++ [Progress value])
  else (Raise StreamlitAPIException, log).

(** What the Predictions tab has computed and shown when it is done. *)
Record outcome : Type := {
  out_risk_df : list (gmap string cell);
  out_yield_df : list (gmap string cell);
  out_risk_prob : Q;
  out_yield_pred : Q;
  out_risk_label : label;
  out_color : string
}.

(** The Predictions tab: [risk_model.predict_proba(risk_df)[0][1]],
    [yield_model.predict(yield_df)[0]], the label and its colour, and
    then the widgets, in the order of the script. *)
Definition predictions (md : models)
    (risk_df yield_df : list (gmap string cell)) (temp_delta gdp_delta : Q)
    : M outcome :=
  proba ← call_predict_proba md risk_df;
  proba0 ← lift (index proba 0);
  risk_prob ← lift (index proba0 1);
  yhat ← call_predict md yield_df;
  yield_pred ← lift (index yhat 0);
  let l := risk_label risk_prob temp_delta gdp_delta in
  show (Markdown l (color l));;
  st_progress risk_prob;;
  show (Caption risk_prob);;
  show (Metric yield_pred);;
  show (Info temp_delta gdp_delta);;
  mret {| out_risk_df := risk_df; out_yield_df := yield_df;
          out_risk_prob := risk_prob; out_yield_pred := yield_pred;
          out_risk_label := l; out_color := color l |}.

(** The script for a chosen country and shock. *)
Definition script (md : models) (df : list row) (country : string)
    (temp_delta gdp_delta : Q) : M outcome :=
  inputs ← lift (data_prep df country temp_delta gdp_delta);
  predictions md inputs.1 inputs.2 temp_delta gdp_delta.

(** The script driven by the sidebar: [None] when a slider position
    does not exist. *)
Definition app (md : models) (df : list row) (country : string)
    (temp_pos gdp_pos : option nat) : option (M outcome) :=
  match temp_delta_slider temp_pos, gdp_delta_slider gdp_pos with
  | Some temp_delta, Some gdp_delta =>
      Some (script md df country temp_delta (inject_Z gdp_delta))
  | _, _ => None
  end.

(** Ascending by year. *)
Definition Year_le (a b : row) : Prop := (Year a ≤ Year b)%Z.

(** ** Sidebar: the country selector *)

(** [df["Country"].unique()]: every value once, in order of first
    appearance. *)
Fixpoint unique (l : list string) : list string :=
  match l with
  | [] => []
  | x :: l' => x :: filter (λ y, y ≠ x) (unique l')
  end.

(** [sorted(...)] on strings (code-point order), by insertion. *)
Fixpoint insert_sorted (x : string) (l : list string) : list string :=
  match l with
  | [] => [x]
  | y :: l' => if String.leb x y then x :: l else y :: insert_sorted x l'
  end.

Definition sorted (l : list string) : list string :=
  foldr insert_sorted [] l.

(** The options of the country selector:
    [sorted(df["Country"].unique())]. *)
Definition country_options (df : list row) : list string :=
  sorted (unique (Country <$> df)).

(** [st.selectbox(label, options)]: the first option until another one
    is picked; nothing when there is no such option. *)
Definition selectbox (options : list string) (pos : option nat)
    : option string :=
  options !! default 0%nat pos.

(** The order [sorted] uses on strings. *)
Definition str_le (a b : string) : Prop := String.leb a b = true.

(** What the shock makes of the cell of indicator [k]. *)
Definition shocked (temp_delta gdp_delta : Q) (k : string) (v : cell) : cell :=
  if decide (k = "GDP_current_US")
  then FloatCell (f64_mul (to_float v) (gdp_factor gdp_delta))
  else if decide (k = "Avg_Temp")
  then FloatCell (f64_add (to_float v) (Q2F temp_delta))
  else v.

(** [risk_model.predict_proba(risk_df)[0][1]] as a value. *)
Definition risk_prob_of (md : models) (risk_df : list (gmap string cell))
    : result Q :=
  proba ← predict_proba md risk_df;
  proba0 ← index proba 0;
  index proba0 1.

(** The model calls among the calls of a log. *)
Definition is_model_call (c : call) : bool :=
  match c with
  | PredictProba _ | Predict _ => true
  | _ => false
  end.

Definition model_calls (log : list call) : list call :=
  filter (λ c, is_model_call c = true) log.

(** What the tab shows for an outcome, in order. *)
Definition widgets (o : outcome) (temp_delta gdp_delta : Q) : list call :=
  [ Markdown (out_risk_label o) (out_color o);
    Progress (out_risk_prob o);
    Caption (out_risk_prob o);
    Metric (out_yield_pred o);
    Info temp_delta gdp_delta ].

(** ** Severity order of the labels *)

Definition severity (l : label) : Z :=
  match l with
  | LOW_RISK => 0
  | STABLE => 1
  | HIGH_RISK => 2
  end.

(** ** Fixtures *)

Definition sample_cells (avg_temp gdp : Q) : gmap string cell :=
  list_to_map
    [ ("Area_Harvested", IntCell 1200000);
      ("Production_Tonnes", IntCell 3500000);
      ("Avg_Temp", FloatCell (Q2F avg_temp));
      ("Temp_Volatility", FloatCell (Q2F 0.42));
      ("GDP_current_US", FloatCell (Q2F gdp));
      ("political_stability_estimate", FloatCell (Q2F (-0.3)));
      ("Inflation", FloatCell (Q2F 4.5));
      ("CO2_emisions", FloatCell (Q2F 150000));
      ("Agri_Land_Percent", FloatCell (Q2F 41.2));
      ("Forest_Land_Percent", FloatCell (Q2F 23.9));
      ("population", IntCell 52000000);
      ("Yield", FloatCell (Q2F 2.9)) ].

Definition sample_df : list row :=
  [ {| Country := "Kenya"; Year := 2019; cells := sample_cells 19.5 90000000000 |};
    {| Country := "Peru"; Year := 2020; cells := sample_cells 18 200000000000 |};
    {| Country := "Kenya"; Year := 2021; cells := sample_cells 20 100000000000 |};
    {| Country := "Kenya"; Year := 2020; cells := sample_cells 19.8 95000000000 |} ].

(** A classifier that always answers [p] for the at-risk class and a
    regressor that always answers [y]. *)
Definition mock_models (p y : Q) : models :=
  {| predict_proba := λ X, Ok [[1 - p; p]];
     predict := λ X, Ok [y] |}.

(** Models whose classifier, resp. regressor, raises. *)
Definition risk_failing_models (e : exn) (y : Q) : models :=
  {| predict_proba := λ X, Raise e;
     predict := λ X, Ok [y] |}.

Definition yield_failing_models (p : Q) (e : exn) : models :=
  {| predict_proba := λ X, Ok [[1 - p; p]];
     predict := λ X, Raise e |}.


(** A classifier fitted on a single class: one probability column. *)
Definition one_class_models (y : Q) : models :=
  {| predict_proba := λ X, Ok [[1]];
     predict := λ X, Ok [y] |}.

(** A regressor that answers with an empty vector. *)
Definition empty_yield_models (p : Q) : models :=
  {| predict_proba := λ X, Ok [[1 - p; p]];
     predict := λ X, Ok [] |}.

(** A data set whose only record lacks two of the indicators. *)
Definition incomplete_df : list row :=
  [ {| Country := "Kenya"; Year := 2021;
       cells := delete "Inflation"
                  (delete "population" (sample_cells 20 100000000000)) |} ].

(** * Properties *)

(** ** Comparisons *)

Lemma Qgeb_iff (x y : Q) : Qgeb x y = true ↔ y <= x.
Proof. unfold Qgeb. apply Qle_bool_iff. Qed.

Lemma Qleb_iff (x y : Q) : Qleb x y = true ↔ x <= y.
Proof. unfold Qleb. apply Qle_bool_iff. Qed.

Lemma Qgtb_iff (x y : Q) : Qgtb x y = true ↔ y < x.
Proof.
  unfold Qgtb. rewrite negb_true_iff. split.
  - intros Hb. apply Qnot_le_lt. intros Hle.
    apply Qle_bool_iff in Hle. congruence.
  - intros Hlt. destruct (Qle_bool x y) eqn:Hb; [|done].
    apply Qle_bool_iff in Hb. by apply Qlt_not_le in Hlt.
Qed.

(** The tests of the two guarded branches decide the two conditions. *)
Lemma high_test_iff (p t : Q) :
  Qgeb p 0.65 && Qgtb t 0 = true ↔ high_risk_cond p t.
Proof.
  unfold high_risk_cond.
  by rewrite andb_true_iff, Qgeb_iff, Qgtb_iff.
Qed.

Lemma low_test_iff (p t g : Q) :
  Qleb p 0.35 && Qleb t 0 && Qgeb g 10 = true ↔ low_risk_cond p t g.
Proof.
  unfold low_risk_cond.
  rewrite !andb_true_iff, !Qleb_iff, Qgeb_iff. tauto.
Qed.

Lemma high_low_disjoint (p t g : Q) :
  ¬ (high_risk_cond p t ∧ low_risk_cond p t g).
Proof.
  intros [[_ Hwarm] (_ & Hcool & _)].
  exact (Qlt_not_le _ _ Hwarm Hcool).
Qed.

(** The label, by cases on the two tests. *)
Lemma risk_label_high (p t g : Q) :
  high_risk_cond p t → risk_label p t g = HIGH_RISK.
Proof.
  intros H%high_test_iff. unfold risk_label. by rewrite H.
Qed.

Lemma risk_label_low (p t g : Q) :
  ¬ high_risk_cond p t → low_risk_cond p t g → risk_label p t g = LOW_RISK.
Proof.
  intros Hh Hl%low_test_iff. unfold risk_label.
  destruct (Qgeb p 0.65 && Qgtb t 0) eqn:E.
  - by apply high_test_iff in E.
  - by rewrite Hl.
Qed.

Lemma risk_label_stable (p t g : Q) :
  ¬ high_risk_cond p t → ¬ low_risk_cond p t g → risk_label p t g = STABLE.
Proof.
  intros Hh Hl. unfold risk_label.
  destruct (Qgeb p 0.65 && Qgtb t 0) eqn:E.
  { by apply high_test_iff in E. }
  destruct (Qleb p 0.35 && Qleb t 0 && Qgeb g 10) eqn:E'; [|done].
  by apply low_test_iff in E'.
Qed.

Lemma high_risk_cond_dec (p t : Q) : {high_risk_cond p t} + {¬ high_risk_cond p t}.
Proof.
  destruct (Qgeb p 0.65 && Qgtb t 0) eqn:E.
  - left. by apply high_test_iff.
  - right. intros H%high_test_iff. congruence.
Qed.

Lemma low_risk_cond_dec (p t g : Q) :
  {low_risk_cond p t g} + {¬ low_risk_cond p t g}.
Proof.
  destruct (Qleb p 0.35 && Qleb t 0 && Qgeb g 10) eqn:E.
  - left. by apply low_test_iff.
  - right. intros H%low_test_iff. congruence.
Qed.

(** ** The labelling rule *)

(** C1. The rule is evaluated top to bottom and the first match wins:
    probability >= 0.65 with a positive temperature shift gives
    HIGH_RISK; otherwise probability <= 0.35 with a non-positive
    temperature shift and a GDP change of at least 10 gives LOW_RISK;
    otherwise the label is STABLE.  This holds for every probability
    and every pair of shock parameters. *)
Theorem risk_label_first_match (p t g : Q) :
  (0.65 <= p ∧ 0 < t → risk_label p t g = HIGH_RISK) ∧
  (¬ (0.65 <= p ∧ 0 < t) →
     p <= 0.35 ∧ t <= 0 ∧ 10 <= g → risk_label p t g = LOW_RISK) ∧
  (¬ (0.65 <= p ∧ 0 < t) →
     ¬ (p <= 0.35 ∧ t <= 0 ∧ 10 <= g) → risk_label p t g = STABLE).
Proof.
  split; [|split].
  - apply risk_label_high.
  - apply risk_label_low.
  - apply risk_label_stable.
Qed.

(** The three end-to-end scenarios, one per branch, obtained from the
    first-match theorem. *)
Lemma risk_label_first_match_witness :
  risk_label 0.7 1.5 0 = HIGH_RISK ∧
  risk_label 0.2 (-1) 15 = LOW_RISK ∧
  risk_label 0.5 0 0 = STABLE.
Proof.
  split; [|split].
  - apply (proj1 (risk_label_first_match 0.7 1.5 0)).
    split; [by apply Qle_bool_iff | reflexivity].
  - apply (proj1 (proj2 (risk_label_first_match 0.2 (-1) 15))).
    + intros [H _]. apply Qle_bool_iff in H. discriminate.
    + repeat split; by apply Qle_bool_iff.
  - apply (proj2 (proj2 (risk_label_first_match 0.5 0 0))).
    + intros [H _]. apply Qle_bool_iff in H. discriminate.
    + intros [H _]. apply Qle_bool_iff in H. discriminate.
Defined.

(** The label the prediction stage reports is the rule applied to the
    probability it reports and to the shock: nothing else enters. *)
Lemma predictions_label (md : models) (risk_df yield_df : list (gmap string cell))
    (t g : Q) (log : list call) :
  match (predictions md risk_df yield_df t g log).1 with
  | Ok o => out_risk_label o = risk_label (out_risk_prob o) t g
  | Raise _ => True
  end.
Proof.
  unfold predictions, call_predict_proba, call_predict, lift, mbind, mret,
    M_bind, M_ret.
  destruct (predict_proba md risk_df) as [proba|]; [|done].
  destruct (index proba 0) as [proba0|]; [|done].
  destruct (index proba0 1) as [risk_prob|]; [|done].
  destruct (predict md yield_df) as [yhat|]; [|done].
  destruct (index yhat 0) as [y|]; [|done].
  unfold show, st_progress.
  by destruct (Qleb 0 risk_prob && Qleb risk_prob 1).
Qed.

(** C4. The label is a function of (probability, temp_delta,
    gdp_delta) alone, the HIGH_RISK and LOW_RISK conditions never hold
    together, each of the two labels is produced exactly when its
    condition holds, and STABLE exactly on the remaining inputs: one and
    only one branch fires. *)
Theorem risk_label_exactly_one (p t g : Q) :
  ¬ (high_risk_cond p t ∧ low_risk_cond p t g) ∧
  (risk_label p t g = HIGH_RISK ↔ high_risk_cond p t) ∧
  (risk_label p t g = LOW_RISK ↔ low_risk_cond p t g) ∧
  (risk_label p t g = STABLE ↔ ¬ high_risk_cond p t ∧ ¬ low_risk_cond p t g) ∧
  (∀ md risk_df yield_df log,
     match (predictions md risk_df yield_df t g log).1 with
     | Ok o => out_risk_label o = risk_label (out_risk_prob o) t g
     | Raise _ => True
     end).
Proof.
  pose proof (high_low_disjoint p t g) as Hdisj.
  split; [done|].
  assert (risk_label p t g = HIGH_RISK ∧ high_risk_cond p t ∧
            ¬ low_risk_cond p t g
          ∨ risk_label p t g = LOW_RISK ∧ ¬ high_risk_cond p t ∧
            low_risk_cond p t g
          ∨ risk_label p t g = STABLE ∧ ¬ high_risk_cond p t ∧
            ¬ low_risk_cond p t g) as Hcases.
  { destruct (high_risk_cond_dec p t) as [Hh|Hh];
      [|destruct (low_risk_cond_dec p t g) as [Hl|Hl]].
    - left. split; [by apply risk_label_high|]. split; [done|].
      intros Hl. apply Hdisj. by split.
    - right; left. split; [by apply risk_label_low|]. by split.
    - right; right. split; [by apply risk_label_stable|]. by split. }
  split; [|split; [|split]].
  - destruct Hcases as [(-> & ? & ?)|[(-> & ? & ?)|(-> & ? & ?)]];
      split; intros; done.
  - destruct Hcases as [(-> & ? & ?)|[(-> & ? & ?)|(-> & ? & ?)]];
      split; intros; done.
  - destruct Hcases as [(-> & ? & ?)|[(-> & ? & ?)|(-> & ? & ?)]];
      split; intros; try done; tauto.
  - intros. apply predictions_label.
Qed.

(** C5. Boundary cases of the rule: probability 0.65 with a shift of
    0.0001 is HIGH_RISK; probability 0.65 with a zero shift is not;
    probability 0.35 with a zero shift and a GDP change of 10 is
    LOW_RISK; with a GDP change of 9.999 it is STABLE. *)
Theorem risk_label_boundaries :
  (∀ g, risk_label 0.65 0.0001 g = HIGH_RISK) ∧
  (∀ g, risk_label 0.65 0 g ≠ HIGH_RISK) ∧
  risk_label 0.35 0 10 = LOW_RISK ∧
  risk_label 0.35 0 9.999 = STABLE.
Proof.
  split; [|split; [|split]].
  - intros g. reflexivity.
  - intros g. assert (risk_label 0.65 0 g = STABLE) as -> by reflexivity.
    discriminate.
  - reflexivity.
  - reflexivity.
Qed.

(** ** Feature derivation *)

Section Dicts.
Implicit Types (src acc d : gmap string cell) (fs : list string).

Lemma getitem_Some d k v : d !! k = Some v → getitem d k = Ok v.
Proof. unfold getitem. by intros ->. Qed.

(** A comprehension over [fs] holds the source's value at every key of
    [fs] and is the accumulator elsewhere. *)
Lemma dict_comp_lookup src fs : ∀ acc d,
  dict_comp src fs acc = Ok d →
  ∀ k, d !! k = if decide (k ∈ fs) then src !! k else acc !! k.
Proof.
  induction fs as [|f fs IH]; intros acc d Hd k; simpl in Hd.
  - injection Hd as <-. case_decide as Hin; [|done].
    by apply elem_of_nil in Hin.
  - destruct (src !! f) as [v|] eqn:Hf; [|done].
    rewrite (IH _ _ Hd k).
    destruct (decide (k = f)) as [->|Hne].
    + rewrite (decide_True (P := f ∈ f :: fs)) by apply list_elem_of_here.
      case_decide; [done|]. by rewrite lookup_insert_eq.
    + destruct (decide (k ∈ fs)) as [Hin|Hnin].
      * by rewrite decide_True by by apply list_elem_of_further.
      * rewrite decide_False.
        -- by rewrite lookup_insert_ne.
        -- intros [?|?]%elem_of_cons; done.
Qed.

(** It raises only for a key the source lacks. *)
Lemma dict_comp_total src fs : ∀ acc,
  Forall (λ f, is_Some (src !! f)) fs →
  ∃ d, dict_comp src fs acc = Ok d.
Proof.
  induction fs as [|f fs IH]; intros acc Hall; simpl.
  - by exists acc.
  - apply Forall_cons in Hall as [[v ->] Hall]. by apply IH.
Qed.

End Dicts.

Lemma YIELD_FEATURES_sub (f : string) :
  f ∈ YIELD_FEATURES → f ∈ RISK_FEATURES.
Proof.
  unfold YIELD_FEATURES, RISK_FEATURES. rewrite !elem_of_cons. tauto.
Qed.

(** Under a record that carries the eleven risk indicators the
    derivation succeeds, and its two vectors are the two comprehensions
    with the temperature and the GDP entries overwritten. *)
Lemma build_features_ok (latest : gmap string cell) (temp_delta gdp_delta : Q)
    (avg gdp : cell) :
  Forall (λ f, is_Some (latest !! f)) RISK_FEATURES →
  latest !! "Avg_Temp" = Some avg →
  latest !! "GDP_current_US" = Some gdp →
  ∃ r0 y0,
    dict_comp latest RISK_FEATURES ∅ = Ok r0 ∧
    dict_comp latest YIELD_FEATURES ∅ = Ok y0 ∧
    build_features latest temp_delta gdp_delta =
      Ok (<["GDP_current_US" :=
               FloatCell (f64_mul (to_float gdp) (gdp_factor gdp_delta))]>
            (<["Avg_Temp" :=
                 FloatCell (f64_add (to_float avg) (Q2F temp_delta))]> r0),
          <["GDP_current_US" :=
               FloatCell (f64_mul (to_float gdp) (gdp_factor gdp_delta))]>
            (<["Avg_Temp" :=
                 FloatCell (f64_add (to_float avg) (Q2F temp_delta))]> y0)).
Proof.
  intros Hall Havg Hgdp.
  destruct (dict_comp_total latest RISK_FEATURES ∅ Hall) as [r0 Hr0].
  assert (Forall (λ f, is_Some (latest !! f)) YIELD_FEATURES) as Hall'.
  { rewrite Forall_forall in Hall |- *.
    intros f Hf. apply Hall. by apply YIELD_FEATURES_sub. }
  destruct (dict_comp_total latest YIELD_FEATURES ∅ Hall') as [y0 Hy0].
  exists r0, y0. split; [done|]. split; [done|].
  pose proof (dict_comp_lookup _ _ _ _ Hr0) as Lr.
  pose proof (dict_comp_lookup _ _ _ _ Hy0) as Ly.
  assert (r0 !! "Avg_Temp" = Some avg) as Hr_avg.
  { rewrite Lr, decide_True; [done|]. unfold RISK_FEATURES. set_solver. }
  assert (r0 !! "GDP_current_US" = Some gdp) as Hr_gdp.
  { rewrite Lr, decide_True; [done|]. unfold RISK_FEATURES. set_solver. }
  assert (y0 !! "Avg_Temp" = Some avg) as Hy_avg.
  { rewrite Ly, decide_True; [done|]. unfold YIELD_FEATURES. set_solver. }
  assert (y0 !! "GDP_current_US" = Some gdp) as Hy_gdp.
  { rewrite Ly, decide_True; [done|]. unfold YIELD_FEATURES. set_solver. }
  unfold build_features. rewrite Hr0, Hy0. simpl.
  unfold iadd, imul.
  rewrite (getitem_Some _ _ _ Hr_avg). simpl.
  rewrite (getitem_Some _ "GDP_current_US" gdp)
    by by rewrite lookup_insert_ne.
  simpl.
  rewrite (getitem_Some _ _ _ Hy_avg). simpl.
  rewrite (getitem_Some _ "GDP_current_US" gdp)
    by by rewrite lookup_insert_ne.
  done.
Qed.

(** C2, as stated, fails: the updates are binary64 operations.  For a
    baseline GDP of exactly 100000000000 and a GDP change of 15, the
    derived GDP is not 100000000000 * (1 + 15 / 100): it is the float
    just below it. *)
Lemma derived_gdp_not_exact :
  ∃ risk_input yield_input base derived,
    build_features (sample_cells 20 100000000000) 1.5 15
      = Ok (risk_input, yield_input) ∧
    (sample_cells 20 100000000000 !! "GDP_current_US") ≫= cell_value
      = Some base ∧
    base == 100000000000 ∧
    (risk_input !! "GDP_current_US") ≫= cell_value = Some derived ∧
    ¬ derived == base * (1 + 15 / 100).
Proof.
  eexists _, _, _, _.
  split; [vm_compute; reflexivity|].
  split; [vm_compute; reflexivity|].
  split; [reflexivity|].
  split; [vm_compute; reflexivity|].
  intros H. vm_compute in H. discriminate.
Qed.

(** C2, amended.  For every temp_delta, gdp_delta and baseline record
    (one that carries the model's indicators), the derivation succeeds
    and, in both the risk and the yield vector, the average temperature
    is the binary64 sum of the baseline's and temp_delta, and the GDP is
    the binary64 product of the baseline's and the float
    1 + gdp_delta / 100: the formulas of the claim with each operation
    rounded to nearest, not the exact real values. *)
Theorem shock_applied (latest : gmap string cell) (temp_delta gdp_delta : Q)
    (avg gdp : cell) :
  Forall (λ f, is_Some (latest !! f)) RISK_FEATURES →
  latest !! "Avg_Temp" = Some avg →
  latest !! "GDP_current_US" = Some gdp →
  ∃ risk_input yield_input,
    build_features latest temp_delta gdp_delta = Ok (risk_input, yield_input) ∧
    risk_input !! "Avg_Temp"
      = Some (FloatCell (f64_add (to_float avg) (Q2F temp_delta))) ∧
    risk_input !! "GDP_current_US"
      = Some (FloatCell
                (f64_mul (to_float gdp)
                   (f64_add (Z2F 1) (f64_div (Q2F gdp_delta) (Z2F 100))))) ∧
    yield_input !! "Avg_Temp" = risk_input !! "Avg_Temp" ∧
    yield_input !! "GDP_current_US" = risk_input !! "GDP_current_US".
Proof.
  intros Hall Havg Hgdp.
  destruct (build_features_ok latest temp_delta gdp_delta avg gdp Hall Havg Hgdp)
    as (r0 & y0 & _ & _ & ->).
  eexists _, _. split; [done|].
  rewrite !lookup_insert_eq.
  rewrite !(lookup_insert_ne _ "GDP_current_US" "Avg_Temp") by done.
  by rewrite !lookup_insert_eq.
Qed.

Lemma shock_applied_witness :
  ∃ risk_input yield_input,
    build_features (sample_cells 20 100000000000) 1.5 15
      = Ok (risk_input, yield_input) ∧
    risk_input !! "Avg_Temp"
      = Some (FloatCell (f64_add (to_float (FloatCell (Q2F 20))) (Q2F 1.5))) ∧
    risk_input !! "GDP_current_US"
      = Some (FloatCell
                (f64_mul (to_float (FloatCell (Q2F 100000000000)))
                   (f64_add (Z2F 1) (f64_div (Q2F 15) (Z2F 100))))) ∧
    yield_input !! "Avg_Temp" = risk_input !! "Avg_Temp" ∧
    yield_input !! "GDP_current_US" = risk_input !! "GDP_current_US".
Proof.
  apply (shock_applied (sample_cells 20 100000000000) 1.5 15
           (FloatCell (Q2F 20)) (FloatCell (Q2F 100000000000))).
  - apply (bool_decide_unpack _). vm_compute. exact I.
  - reflexivity.
  - reflexivity.
Defined.

(** C3. For every shock and every baseline record (one that carries the
    model's indicators), every indicator of the two derived vectors
    other than the average temperature and the GDP has the baseline
    record's value, and the vectors hold nothing but the model's
    indicators. *)
Theorem other_indicators_unchanged (latest : gmap string cell) (temp_delta gdp_delta : Q) :
  Forall (λ f, is_Some (latest !! f)) RISK_FEATURES →
  ∃ risk_input yield_input,
    build_features latest temp_delta gdp_delta = Ok (risk_input, yield_input) ∧
    ∀ f, f ≠ "Avg_Temp" → f ≠ "GDP_current_US" →
      (f ∈ RISK_FEATURES → risk_input !! f = latest !! f) ∧
      (f ∈ YIELD_FEATURES → yield_input !! f = latest !! f) ∧
      (f ∉ RISK_FEATURES → risk_input !! f = None) ∧
      (f ∉ YIELD_FEATURES → yield_input !! f = None).
Proof.
  intros Hall.
  assert (is_Some (latest !! "Avg_Temp")) as [avg Havg].
  { rewrite Forall_forall in Hall. apply Hall.
    unfold RISK_FEATURES. rewrite !elem_of_cons. tauto. }
  assert (is_Some (latest !! "GDP_current_US")) as [gdp Hgdp].
  { rewrite Forall_forall in Hall. apply Hall.
    unfold RISK_FEATURES. rewrite !elem_of_cons. tauto. }
  destruct (build_features_ok latest temp_delta gdp_delta avg gdp Hall Havg Hgdp)
    as (r0 & y0 & Hr0 & Hy0 & ->).
  eexists _, _. split; [done|].
  intros f Hne_avg Hne_gdp.
  rewrite !(lookup_insert_ne _ _ f) by done.
  rewrite (dict_comp_lookup _ _ _ _ Hr0 f), (dict_comp_lookup _ _ _ _ Hy0 f).
  rewrite !lookup_empty.
  repeat split; intros Hf.
  - by rewrite decide_True.
  - by rewrite decide_True.
  - by rewrite decide_False.
  - by rewrite decide_False.
Qed.

Lemma other_indicators_unchanged_witness :
  ∃ risk_input yield_input,
    build_features (sample_cells 20 100000000000) 1.5 15
      = Ok (risk_input, yield_input) ∧
    ∀ f, f ≠ "Avg_Temp" → f ≠ "GDP_current_US" →
      (f ∈ RISK_FEATURES →
         risk_input !! f = sample_cells 20 100000000000 !! f) ∧
      (f ∈ YIELD_FEATURES →
         yield_input !! f = sample_cells 20 100000000000 !! f) ∧
      (f ∉ RISK_FEATURES → risk_input !! f = None) ∧
      (f ∉ YIELD_FEATURES → yield_input !! f = None).
Proof.
  apply (other_indicators_unchanged (sample_cells 20 100000000000) 1.5 15).
  apply (bool_decide_unpack _). vm_compute. exact I.
Defined.

(** ** The script: failures and model calls *)

Lemma script_prep_raise (md : models) (df : list row) (country : string)
    (t g : Q) (log : list call) (e : exn) :
  data_prep df country t g = Raise e →
  script md df country t g log = (Raise e, log).
Proof.
  intros H. unfold script, lift, mbind, M_bind. by rewrite H.
Qed.

Lemma script_prep_ok (md : models) (df : list row) (country : string)
    (t g : Q) (log : list call) (risk_df yield_df : list (gmap string cell)) :
  data_prep df country t g = Ok (risk_df, yield_df) →
  script md df country t g log = predictions md risk_df yield_df t g log.
Proof.
  intros H. unfold script, lift, mbind, M_bind. by rewrite H.
Qed.

(** The prediction stage, by cases on what the models answer. *)
Lemma predictions_risk_raise md risk_df yield_df t g log e :
  predict_proba md risk_df = Raise e →
  predictions md risk_df yield_df t g log
    = (Raise e, log ++ [PredictProba risk_df]).
Proof.
  intros H. unfold predictions, call_predict_proba, mbind, M_bind.
  by rewrite H.
Qed.

Lemma predictions_yield_raise md risk_df yield_df t g log proba proba0 p e :
  predict_proba md risk_df = Ok proba →
  index proba 0 = Ok proba0 →
  index proba0 1 = Ok p →
  predict md yield_df = Raise e →
  predictions md risk_df yield_df t g log
    = (Raise e, log ++ [PredictProba risk_df; Predict yield_df]).
Proof.
  intros H H0 H1 Hy.
  unfold predictions, call_predict_proba, call_predict, lift, mbind, M_bind.
  rewrite H, H0, H1, Hy. by rewrite <- app_assoc.
Qed.

(** Once both models have answered, the widgets: the label is shown,
    then the progress bar accepts or refuses the probability. *)
Lemma predictions_answered md risk_df yield_df t g log proba proba0 p yhat y :
  predict_proba md risk_df = Ok proba →
  index proba 0 = Ok proba0 →
  index proba0 1 = Ok p →
  predict md yield_df = Ok yhat →
  index yhat 0 = Ok y →
  predictions md risk_df yield_df t g log
    = if Qleb 0 p && Qleb p 1
      then (Ok {| out_risk_df := risk_df; out_yield_df := yield_df;
                  out_risk_prob := p; out_yield_pred := y;
                  out_risk_label := risk_label p t g;
                  out_color := color (risk_label p t g) |},
            log ++ [PredictProba risk_df; Predict yield_df;
                    Markdown (risk_label p t g) (color (risk_label p t g));
                    Progress p; Caption p; Metric y; Info t g])
      else (Raise StreamlitAPIException,
            log ++ [PredictProba risk_df; Predict yield_df;
                    Markdown (risk_label p t g) (color (risk_label p t g))]).
Proof.
  intros H H0 H1 Hy Hy0.
  unfold predictions, call_predict_proba, call_predict, lift, mbind, mret,
    M_bind, M_ret, show, st_progress.
  rewrite H, H0, H1, Hy, Hy0.
  destruct (Qleb 0 p && Qleb p 1); by rewrite <- !app_assoc.
Qed.

Lemma progress_test_iff (p : Q) :
  Qleb 0 p && Qleb p 1 = true ↔ 0 <= p ∧ p <= 1.
Proof. by rewrite andb_true_iff, !Qleb_iff. Qed.

Lemma predictions_ok md risk_df yield_df t g log proba proba0 p yhat y :
  predict_proba md risk_df = Ok proba →
  index proba 0 = Ok proba0 →
  index proba0 1 = Ok p →
  predict md yield_df = Ok yhat →
  index yhat 0 = Ok y →
  0 <= p → p <= 1 →
  predictions md risk_df yield_df t g log
    = (Ok {| out_risk_df := risk_df; out_yield_df := yield_df;
             out_risk_prob := p; out_yield_pred := y;
             out_risk_label := risk_label p t g;
             out_color := color (risk_label p t g) |},
       log ++ [PredictProba risk_df; Predict yield_df;
               Markdown (risk_label p t g) (color (risk_label p t g));
               Progress p; Caption p; Metric y; Info t g]).
Proof.
  intros H H0 H1 Hy Hy0 Hp0 Hp1.
  rewrite (predictions_answered _ _ _ _ _ _ _ _ _ _ _ H H0 H1 Hy Hy0).
  by rewrite (proj2 (progress_test_iff p)).
Qed.

Lemma predictions_progress_raise md risk_df yield_df t g log proba proba0 p
    yhat y :
  predict_proba md risk_df = Ok proba →
  index proba 0 = Ok proba0 →
  index proba0 1 = Ok p →
  predict md yield_df = Ok yhat →
  index yhat 0 = Ok y →
  ¬ (0 <= p ∧ p <= 1) →
  predictions md risk_df yield_df t g log
    = (Raise StreamlitAPIException,
       log ++ [PredictProba risk_df; Predict yield_df;
               Markdown (risk_label p t g) (color (risk_label p t g))]).
Proof.
  intros H H0 H1 Hy Hy0 Hp.
  rewrite (predictions_answered _ _ _ _ _ _ _ _ _ _ _ H H0 H1 Hy Hy0).
  destruct (Qleb 0 p && Qleb p 1) eqn:E; [|done].
  by apply progress_test_iff in E.
Qed.

(** An outcome comes only out of two successful model calls. *)
Lemma predictions_Ok_inv md risk_df yield_df t g log o :
  (predictions md risk_df yield_df t g log).1 = Ok o →
  ∃ proba yhat,
    predict_proba md risk_df = Ok proba ∧
    predict md yield_df = Ok yhat ∧
    (proba !! 0%nat) ≫= (.!! 1%nat) = Some (out_risk_prob o) ∧
    yhat !! 0%nat = Some (out_yield_pred o).
Proof.
  unfold predictions, call_predict_proba, call_predict, lift, mbind, mret,
    M_bind, M_ret, index, show, st_progress.
  destruct (predict_proba md risk_df) as [proba|]; [|done].
  destruct (proba !! 0%nat) as [proba0|] eqn:E0; [|done].
  destruct (proba0 !! 1%nat) as [p|] eqn:E1; [|done].
  destruct (predict md yield_df) as [yhat|]; [|done].
  destruct (yhat !! 0%nat) as [y|] eqn:Ey; [|done].
  destruct (Qleb 0 p && Qleb p 1); [|done].
  simpl. intros [= <-]. exists proba, yhat. simpl.
  rewrite E0. simpl. by rewrite E1.
Qed.

Lemma filter_no_match (df : list row) (country : string) :
  Forall (λ r, Country r ≠ country) df →
  filter (λ r, Country r = country) df = [].
Proof.
  induction 1 as [|r df Hr _ IH]; [done|].
  by rewrite filter_cons_False.
Qed.

(** C7. For every country name without a record in the data set the
    run fails, with the [IndexError] of the positional lookup on the
    empty selection (the script's form of UnknownCountryError), and
    the call log is left as it was: neither model is invoked. *)
Theorem unknown_country_no_model_call (md : models) (df : list row)
    (country : string) (t g : Q) (log : list call) :
  Forall (λ r, Country r ≠ country) df →
  script md df country t g log = (Raise IndexError, log).
Proof.
  intros Hno. apply script_prep_raise.
  unfold data_prep, latest_of. by rewrite (filter_no_match _ _ Hno).
Qed.

Lemma unknown_country_no_model_call_witness :
  script (mock_models 0.7 3.1) sample_df "Atlantis" 1.5 0 []
    = (Raise IndexError, []).
Proof.
  apply (unknown_country_no_model_call (mock_models 0.7 3.1) sample_df
           "Atlantis" 1.5 0 []).
  apply (bool_decide_unpack _). vm_compute. exact I.
Defined.

(** C8. The pair (risk assessment, yield estimate) is all or nothing.
    When the classifier raises, the run raises the same exception and
    the regressor is not called; when the regressor raises, the run
    raises that exception and reports no label; and an outcome is
    returned only when both model calls have answered. *)
Theorem model_failure_all_or_nothing (md : models) (df : list row)
    (country : string) (t g : Q) (log : list call)
    (risk_df yield_df : list (gmap string cell)) :
  data_prep df country t g = Ok (risk_df, yield_df) →
  (∀ e, predict_proba md risk_df = Raise e →
     script md df country t g log
       = (Raise e, log ++ [PredictProba risk_df])) ∧
  (∀ e proba proba0 p,
     predict_proba md risk_df = Ok proba →
     index proba 0 = Ok proba0 →
     index proba0 1 = Ok p →
     predict md yield_df = Raise e →
     script md df country t g log
       = (Raise e, log ++ [PredictProba risk_df; Predict yield_df])) ∧
  (∀ o, (script md df country t g log).1 = Ok o →
     ∃ proba yhat,
       predict_proba md risk_df = Ok proba ∧
       predict md yield_df = Ok yhat ∧
       (proba !! 0%nat) ≫= (.!! 1%nat) = Some (out_risk_prob o) ∧
       yhat !! 0%nat = Some (out_yield_pred o)).
Proof.
  intros Hprep. rewrite (script_prep_ok _ _ _ _ _ _ _ _ Hprep).
  split; [|split].
  - intros e. apply predictions_risk_raise.
  - intros e proba proba0 p. apply predictions_yield_raise.
  - intros o. apply predictions_Ok_inv.
Qed.

Lemma model_failure_all_or_nothing_witness :
  ∃ risk_df yield_df,
    data_prep sample_df "Kenya" 1.5 0 = Ok (risk_df, yield_df) ∧
    script (risk_failing_models (ModelError "down") 3.1)
        sample_df "Kenya" 1.5 0 []
      = (Raise (ModelError "down"), [PredictProba risk_df]) ∧
    script (yield_failing_models 0.7 (ModelError "down"))
        sample_df "Kenya" 1.5 0 []
      = (Raise (ModelError "down"), [PredictProba risk_df; Predict yield_df]).
Proof.
  eexists _, _. split; [reflexivity|]. split.
  - apply (proj1 (model_failure_all_or_nothing
                    (risk_failing_models (ModelError "down") 3.1)
                    sample_df "Kenya" 1.5 0 [] _ _ eq_refl)).
    reflexivity.
  - eapply (proj1 (proj2 (model_failure_all_or_nothing
                    (yield_failing_models 0.7 (ModelError "down"))
                    sample_df "Kenya" 1.5 0 [] _ _ eq_refl)));
      reflexivity.
Defined.

(** ** A probability outside [0,1] *)

(** C6, as stated, fails: a classifier answering 1.5 under a warming
    shock gets the HIGH_RISK label, which is shown before the progress
    bar refuses the probability. *)
Lemma out_of_range_probability_labelled :
  ∃ risk_df yield_df,
    script (mock_models 1.5 3.1) sample_df "Kenya" 1.5 0 []
      = (Raise StreamlitAPIException,
         [PredictProba risk_df; Predict yield_df;
          Markdown HIGH_RISK "#D7263D"]) ∧
    ¬ (0 <= 1.5 ∧ 1.5 <= 1).
Proof.
  eexists _, _. split; [vm_compute; reflexivity|].
  intros [_ H]. apply Qle_bool_iff in H. discriminate.
Qed.

(** C6, amended.  When both models have answered, a probability
    outside [0,1] makes the run fail, with the exception of the
    progress bar, and nothing clamps it; but the label the rule gives
    for that probability has been shown by then, and the yield is not
    shown.  A probability within [0,1] is reported as it is, with its
    label, and the run completes. *)
Theorem out_of_range_probability_fails_after_label (md : models)
    (df : list row) (country : string) (t g : Q) (log : list call)
    (risk_df yield_df : list (gmap string cell))
    (proba : list (list Q)) (proba0 : list Q) (p : Q)
    (yhat : list Q) (y : Q) :
  data_prep df country t g = Ok (risk_df, yield_df) →
  predict_proba md risk_df = Ok proba →
  index proba 0 = Ok proba0 →
  index proba0 1 = Ok p →
  predict md yield_df = Ok yhat →
  index yhat 0 = Ok y →
  (¬ (0 <= p ∧ p <= 1) →
     script md df country t g log
       = (Raise StreamlitAPIException,
          log ++ [PredictProba risk_df; Predict yield_df;
                  Markdown (risk_label p t g) (color (risk_label p t g))])) ∧
  (0 <= p ∧ p <= 1 →
     script md df country t g log
       = (Ok {| out_risk_df := risk_df; out_yield_df := yield_df;
                out_risk_prob := p; out_yield_pred := y;
                out_risk_label := risk_label p t g;
                out_color := color (risk_label p t g) |},
          log ++ [PredictProba risk_df; Predict yield_df;
                  Markdown (risk_label p t g) (color (risk_label p t g));
                  Progress p; Caption p; Metric y; Info t g])).
Proof.
  intros Hprep Hp H0 H1 Hy Hy0.
  rewrite (script_prep_ok _ _ _ _ _ _ _ _ Hprep). split.
  - intros Hout.
    by apply (predictions_progress_raise _ _ _ _ _ _ proba proba0 p yhat y).
  - intros [Hp0 Hp1].
    by apply (predictions_ok _ _ _ _ _ _ proba proba0 p yhat y).
Qed.

Lemma out_of_range_probability_fails_after_label_witness :
  ∃ risk_df yield_df,
    script (mock_models (-0.25) 3.1) sample_df "Kenya" (-1) 15 []
      = (Raise StreamlitAPIException,
         [] ++ [PredictProba risk_df; Predict yield_df;
                Markdown (risk_label (-0.25) (-1) 15)
                  (color (risk_label (-0.25) (-1) 15))]) ∧
    script (mock_models 0.2 3.1) sample_df "Kenya" (-1) 15 []
      = (Ok {| out_risk_df := risk_df; out_yield_df := yield_df;
               out_risk_prob := 0.2; out_yield_pred := 3.1;
               out_risk_label := risk_label 0.2 (-1) 15;
               out_color := color (risk_label 0.2 (-1) 15) |},
         [] ++ [PredictProba risk_df; Predict yield_df;
                Markdown (risk_label 0.2 (-1) 15)
                  (color (risk_label 0.2 (-1) 15));
                Progress 0.2; Caption 0.2; Metric 3.1; Info (-1) 15]).
Proof.
  eexists _, _. split.
  - eapply (proj1 (out_of_range_probability_fails_after_label
                     (mock_models (-0.25) 3.1) sample_df "Kenya" (-1) 15 []
                     _ _ _ _ _ _ _ eq_refl eq_refl eq_refl eq_refl
                     eq_refl eq_refl)).
    intros [H _]. apply Qle_bool_iff in H. discriminate.
  - eapply (proj2 (out_of_range_probability_fails_after_label
                     (mock_models 0.2 3.1) sample_df "Kenya" (-1) 15 []
                     _ _ _ _ _ _ _ eq_refl eq_refl eq_refl eq_refl
                     eq_refl eq_refl)).
    split; by apply Qle_bool_iff.
Defined.

(** ** What the sidebar can deliver *)

Lemma temp_delta_slider_stop (pos : option nat) (v : Q) :
  temp_delta_slider pos = Some v →
  ∃ k : Z, (0 ≤ k ≤ 12)%Z ∧ v = -2.0 + inject_Z k * 0.5 ∨ v = 0.0.
Proof.
  unfold temp_delta_slider, slider. destruct pos as [k|].
  - destruct (Qle_bool _ _) eqn:E; [|done].
    intros [= <-]. exists (Z.of_nat k). left. split; [|done].
    apply Qle_bool_iff in E. unfold Qle in E. simpl in E. lia.
  - intros [= <-]. exists 0%Z. by right.
Qed.

Lemma gdp_delta_slider_stop (pos : option nat) (v : Z) :
  gdp_delta_slider pos = Some v →
  ∃ k : Z, (0 ≤ k ≤ 10)%Z ∧ v = (-20 + k * 5)%Z.
Proof.
  unfold gdp_delta_slider, slider_int. destruct pos as [k|].
  - destruct (_ <=? _)%Z eqn:E; [|done].
    intros [= <-]. exists (Z.of_nat k). split; [|done].
    apply Z.leb_le in E. lia.
  - intros [= <-]. exists 4%Z. split; [lia|done].
Qed.

(** C10. Whatever the two sliders deliver, the temperature shift is a
    multiple of 0.5 between -2 and 4 and the GDP change is an integer
    multiple of 5 between -20 and 30; so the test gdp_delta >= 10 holds
    exactly at 10, 15, 20, 25 and 30, the value 9.999 is never
    delivered, and these are the values the script is run with. *)
Theorem sidebar_values (temp_pos gdp_pos : option nat)
    (temp_delta : Q) (gdp_delta : Z) :
  temp_delta_slider temp_pos = Some temp_delta →
  gdp_delta_slider gdp_pos = Some gdp_delta →
  (-2 <= temp_delta ∧ temp_delta <= 4 ∧
     ∃ m : Z, temp_delta == inject_Z m * 0.5) ∧
  ((-20 ≤ gdp_delta)%Z ∧ (gdp_delta ≤ 30)%Z ∧
     ∃ m : Z, gdp_delta = (m * 5)%Z) ∧
  (10 <= inject_Z gdp_delta ↔ gdp_delta ∈ ([10; 15; 20; 25; 30] : list Z)%Z) ∧
  ¬ inject_Z gdp_delta == 9.999 ∧
  (∀ md df country,
     app md df country temp_pos gdp_pos
       = Some (script md df country temp_delta (inject_Z gdp_delta))).
Proof.
  intros Ht Hg.
  split; [|split; [|split; [|split]]].
  - destruct (temp_delta_slider_stop _ _ Ht) as [k [[Hk ->]| ->]].
    + split; [|split].
      * unfold Qle. simpl. lia.
      * unfold Qle. simpl. lia.
      * exists (k - 4)%Z. unfold Qeq. simpl. lia.
    + split; [|split].
      * unfold Qle. simpl. lia.
      * unfold Qle. simpl. lia.
      * exists 0%Z. unfold Qeq. simpl. lia.
  - destruct (gdp_delta_slider_stop _ _ Hg) as (k & Hk & ->).
    split; [lia|]. split; [lia|]. exists (k - 4)%Z. lia.
  - destruct (gdp_delta_slider_stop _ _ Hg) as (k & Hk & ->).
    change 10 with (inject_Z 10). rewrite <- Zle_Qle.
    rewrite !elem_of_cons, elem_of_nil. lia.
  - unfold Qeq. simpl. lia.
  - intros md df country. unfold app. by rewrite Ht, Hg.
Qed.

Lemma sidebar_values_witness :
  (-2 <= 1.50 ∧ 1.50 <= 4 ∧ ∃ m : Z, 1.50 == inject_Z m * 0.5) ∧
  ((-20 ≤ 15)%Z ∧ (15 ≤ 30)%Z ∧ ∃ m : Z, 15%Z = (m * 5)%Z) ∧
  (10 <= inject_Z 15 ↔ 15%Z ∈ ([10; 15; 20; 25; 30] : list Z)%Z) ∧
  ¬ inject_Z 15 == 9.999 ∧
  (∀ md df country,
     app md df country (Some 7%nat) (Some 7%nat)
       = Some (script md df country 1.50 (inject_Z 15))).
Proof.
  apply (sidebar_values (Some 7%nat) (Some 7%nat) 1.50 15%Z); reflexivity.
Defined.

(** * Further properties of the script *)

(** ** The latest record of a country *)

Lemma insert_by_Year_perm (r : row) (l : list row) :
  insert_by_Year r l ≡ₚ r :: l.
Proof.
  induction l as [|r' l IH]; simpl; [done|].
  destruct (Year r <=? Year r')%Z; [done|].
  rewrite IH. apply Permutation_swap.
Qed.

Lemma sort_values_Year_perm (l : list row) : sort_values_Year l ≡ₚ l.
Proof.
  induction l as [|r l IH]; simpl; [done|].
  by rewrite insert_by_Year_perm, IH.
Qed.

Lemma insert_by_Year_sorted (r : row) (l : list row) :
  StronglySorted Year_le l → StronglySorted Year_le (insert_by_Year r l).
Proof.
  induction 1 as [|r' l Hl IH Hall]; simpl.
  - repeat constructor.
  - destruct (Year r <=? Year r')%Z eqn:E.
    + apply Z.leb_le in E. constructor; [by constructor|].
      constructor; [done|].
      eapply Forall_impl; [exact Hall|].
      unfold Year_le. intros; lia.
    + apply Z.leb_gt in E. constructor; [done|].
      rewrite insert_by_Year_perm. constructor; [|done].
      unfold Year_le. lia.
Qed.

Lemma sort_values_Year_sorted (l : list row) :
  StronglySorted Year_le (sort_values_Year l).
Proof.
  induction l as [|r l IH]; simpl; [constructor|].
  by apply insert_by_Year_sorted.
Qed.

(** In a frame sorted by year no row is later than the last one. *)
Lemma sorted_last_latest (l : list row) (x : row) :
  StronglySorted Year_le l → last l = Some x →
  ∀ y, y ∈ l → (Year y ≤ Year x)%Z.
Proof.
  induction 1 as [|a l Hl IH Hall]; intros Hx y Hy; [done|].
  destruct l as [|b l].
  - injection Hx as <-. apply list_elem_of_singleton in Hy as ->. lia.
  - rewrite last_cons_cons in Hx.
    apply elem_of_cons in Hy as [->|Hy]; [|by apply IH].
    rewrite Forall_forall in Hall. apply Hall.
    by apply last_Some_elem_of.
Qed.

(** What [latest_of] answers, in terms of the data set. *)
Lemma latest_of_Ok (df : list row) (country : string) (r : row) :
  latest_of df country = Ok r →
  r ∈ df ∧ Country r = country ∧
  ∀ r', r' ∈ df → Country r' = country → (Year r' ≤ Year r)%Z.
Proof.
  unfold latest_of, iloc_last.
  destruct (last _) as [x|] eqn:Hlast; [|done]. intros [= ->].
  pose proof (last_Some_elem_of _ _ Hlast) as Hin.
  rewrite sort_values_Year_perm in Hin.
  apply list_elem_of_filter in Hin as [Hc Hin].
  split; [done|]. split; [done|].
  intros r' Hr' Hc'.
  apply (sorted_last_latest _ _ (sort_values_Year_sorted _) Hlast).
  rewrite sort_values_Year_perm. by apply list_elem_of_filter.
Qed.

Lemma latest_of_cases (df : list row) (country : string) :
  (Forall (λ r, Country r ≠ country) df ∧
     latest_of df country = Raise IndexError)
  ∨ (Exists (λ r, Country r = country) df ∧
       ∃ r, latest_of df country = Ok r).
Proof.
  unfold latest_of, iloc_last.
  destruct (last _) as [x|] eqn:Hlast.
  - right. split; [|by exists x].
    apply last_Some_elem_of in Hlast.
    rewrite sort_values_Year_perm in Hlast.
    apply list_elem_of_filter in Hlast as [Hc Hin].
    apply Exists_exists. by exists x.
  - left. split; [|done].
    apply last_None in Hlast.
    apply Forall_forall. intros r Hr Hc.
    assert (r ∈ sort_values_Year (filter (λ r, Country r = country) df))
      as Hin.
    { rewrite sort_values_Year_perm. by apply list_elem_of_filter. }
    rewrite Hlast in Hin. by apply elem_of_nil in Hin.
Qed.

(** X1. When the data set has a row for the country, [latest] is one
    of that country's rows and no row of the country has a later
    year. *)
Theorem latest_is_most_recent (df : list row) (country : string) :
  Exists (λ r, Country r = country) df →
  ∃ r, latest_of df country = Ok r ∧
    r ∈ df ∧ Country r = country ∧
    ∀ r', r' ∈ df → Country r' = country → (Year r' ≤ Year r)%Z.
Proof.
  intros Hex.
  destruct (latest_of_cases df country) as [[Hno _]|[_ [r Hr]]].
  - exfalso. apply Exists_exists in Hex as (r & Hin & Hc).
    rewrite Forall_forall in Hno. by apply (Hno r).
  - exists r. split; [done|]. by apply latest_of_Ok.
Qed.

Lemma latest_is_most_recent_witness :
  ∃ r, latest_of sample_df "Kenya" = Ok r ∧
    r ∈ sample_df ∧ Country r = "Kenya" ∧
    ∀ r', r' ∈ sample_df → Country r' = "Kenya" → (Year r' ≤ Year r)%Z.
Proof.
  apply (latest_is_most_recent sample_df "Kenya").
  apply (bool_decide_unpack _). vm_compute. exact I.
Defined.

(** X2. The selection of the latest record raises exactly when the
    data set has no row for the country, and then it is the
    [IndexError] of the positional lookup: it raises nothing else. *)
Theorem latest_of_raises_iff (df : list row) (country : string) (e : exn) :
  latest_of df country = Raise e ↔
  e = IndexError ∧ Forall (λ r, Country r ≠ country) df.
Proof.
  destruct (latest_of_cases df country) as [[Hno Hr]|[Hex [r Hr]]];
    rewrite Hr; split.
  - by intros [= <-].
  - by intros [-> _].
  - done.
  - intros [_ Hno]. exfalso.
    apply Exists_exists in Hex as (r' & Hin & Hc).
    rewrite Forall_forall in Hno. by apply (Hno r').
Qed.

(** The latest record depends on the country's rows only, and not on
    their order when the country has one row per year. *)
Lemma latest_of_perm (df df' : list row) (country : string) :
  filter (λ r, Country r = country) df
    ≡ₚ filter (λ r, Country r = country) df' →
  (∀ r r', r ∈ df → r' ∈ df → Country r = country → Country r' = country →
     Year r = Year r' → r = r') →
  latest_of df country = latest_of df' country.
Proof.
  intros Hperm Hinv.
  assert (∀ r, r ∈ df ∧ Country r = country ↔
               r ∈ df' ∧ Country r = country) as Hsame.
  { intros r.
    assert (r ∈ filter (λ r, Country r = country) df ↔
            r ∈ filter (λ r, Country r = country) df') as Hmem
      by by rewrite Hperm.
    rewrite !list_elem_of_filter in Hmem. tauto. }
  destruct (latest_of_cases df country) as [[Hno Hr]|[_ [r Hr]]];
    destruct (latest_of_cases df' country) as [[Hno' Hr']|[Hex' [r' Hr']]];
    rewrite Hr, Hr'; [done| | |].
  - exfalso. apply Exists_exists in Hex' as (x & Hin & Hc).
    rewrite Forall_forall in Hno. apply (Hno x); [|done].
    by apply Hsame.
  - exfalso. apply latest_of_Ok in Hr as (Hin & Hc & _).
    rewrite Forall_forall in Hno'. apply (Hno' r); [|done].
    by apply Hsame.
  - f_equal.
    apply latest_of_Ok in Hr as (Hin & Hc & Hmax).
    apply latest_of_Ok in Hr' as (Hin' & Hc' & Hmax').
    assert (r' ∈ df) as Hin'' by by apply Hsame.
    assert (r ∈ df') as Hin''' by by apply Hsame.
    apply Hinv; try done.
    pose proof (Hmax r' Hin'' Hc'). pose proof (Hmax' r Hin''' Hc). lia.
Qed.

(** X3. A run depends on the data set only through the selected
    country's rows, and not on their order: two data sets that hold the
    same rows for the country, in any order and among any rows of other
    countries, give the same run, provided the country has at most one
    row per year. *)
Theorem script_depends_on_country_rows (md : models) (df df' : list row)
    (country : string) (t g : Q) (log : list call) :
  filter (λ r, Country r = country) df
    ≡ₚ filter (λ r, Country r = country) df' →
  (∀ r r', r ∈ df → r' ∈ df → Country r = country → Country r' = country →
     Year r = Year r' → r = r') →
  script md df country t g log = script md df' country t g log.
Proof.
  intros Hperm Hinv. unfold script, data_prep.
  by rewrite (latest_of_perm df df' country Hperm Hinv).
Qed.

Lemma script_depends_on_country_rows_witness :
  script (mock_models 0.7 3.1) sample_df "Kenya" 1.5 0 []
  = script (mock_models 0.7 3.1)
      [ {| Country := "Kenya"; Year := 2021;
           cells := sample_cells 20 100000000000 |};
        {| Country := "Kenya"; Year := 2019;
           cells := sample_cells 19.5 90000000000 |};
        {| Country := "India"; Year := 2022;
           cells := sample_cells 25 3000000000000 |};
        {| Country := "Kenya"; Year := 2020;
           cells := sample_cells 19.8 95000000000 |} ]
      "Kenya" 1.5 0 [].
Proof.
  apply (script_depends_on_country_rows (mock_models 0.7 3.1) sample_df).
  - unfold sample_df.
    rewrite !filter_cons, filter_nil. simpl. apply perm_swap.
  - intros r r' Hr Hr'. unfold sample_df in Hr, Hr'.
    repeat (apply elem_of_cons in Hr as [->|Hr]);
      try (by apply elem_of_nil in Hr);
      repeat (apply elem_of_cons in Hr' as [->|Hr']);
      try (by apply elem_of_nil in Hr'); simpl; intros; done.
Defined.

(** ** The country selector *)

Lemma string_compare_trans (a : string) : ∀ b c,
  String.compare a b ≠ Gt → String.compare b c ≠ Gt →
  String.compare a c ≠ Gt.
Proof.
  induction a as [|x a IH]; intros [|y b] [|z c]; simpl; try done.
  destruct (Ascii.compare x y) eqn:Exy; [| |done];
    destruct (Ascii.compare y z) eqn:Eyz; try done.
  - apply Ascii.compare_eq_iff in Exy as ->. rewrite Eyz. apply IH.
  - apply Ascii.compare_eq_iff in Exy as ->. by rewrite Eyz.
  - apply Ascii.compare_eq_iff in Eyz as <-. by rewrite Exy.
  - intros _ _. unfold Ascii.compare in *.
    apply N.compare_lt_iff in Exy. apply N.compare_lt_iff in Eyz.
    pose proof (N.lt_trans _ _ _ Exy Eyz) as H.
    apply N.compare_lt_iff in H. by rewrite H.
Qed.

Lemma str_le_trans (a b c : string) : str_le a b → str_le b c → str_le a c.
Proof.
  assert (∀ x y, str_le x y ↔ String.compare x y ≠ Gt) as Halt.
  { intros x y. unfold str_le, String.leb.
    destruct (String.compare x y); split; done. }
  rewrite !Halt. apply string_compare_trans.
Qed.

Lemma unique_elem_of (l : list string) (x : string) :
  x ∈ unique l ↔ x ∈ l.
Proof.
  induction l as [|a l IH]; simpl; [done|].
  rewrite !elem_of_cons, list_elem_of_filter, IH.
  destruct (decide (x = a)); tauto.
Qed.

Lemma unique_NoDup (l : list string) : NoDup (unique l).
Proof.
  induction l as [|a l IH]; simpl; constructor.
  - rewrite list_elem_of_filter. tauto.
  - by apply NoDup_filter.
Qed.

Lemma insert_sorted_perm (x : string) (l : list string) :
  insert_sorted x l ≡ₚ x :: l.
Proof.
  induction l as [|y l IH]; simpl; [done|].
  destruct (String.leb x y); [done|].
  rewrite IH. apply Permutation_swap.
Qed.

Lemma sorted_perm (l : list string) : sorted l ≡ₚ l.
Proof.
  induction l as [|x l IH]; simpl; [done|].
  by rewrite insert_sorted_perm, IH.
Qed.

Lemma insert_sorted_sorted (x : string) (l : list string) :
  StronglySorted str_le l → StronglySorted str_le (insert_sorted x l).
Proof.
  induction 1 as [|y l Hl IH Hall]; simpl.
  - repeat constructor.
  - destruct (String.leb x y) eqn:E.
    + constructor; [by constructor|].
      constructor; [done|].
      eapply Forall_impl; [exact Hall|].
      intros z Hz. by apply (str_le_trans x y z).
    + constructor; [done|].
      rewrite insert_sorted_perm. constructor; [|done].
      destruct (String.leb_total x y) as [H|H]; [congruence|done].
Qed.

Lemma sorted_sorted (l : list string) : StronglySorted str_le (sorted l).
Proof.
  induction l as [|x l IH]; simpl; [constructor|].
  by apply insert_sorted_sorted.
Qed.

Lemma country_options_elem_of (df : list row) (c : string) :
  c ∈ country_options df ↔ Exists (λ r, Country r = c) df.
Proof.
  unfold country_options.
  rewrite sorted_perm, unique_elem_of, list_elem_of_fmap, Exists_exists.
  split; intros (r & H1 & H2); exists r; done.
Qed.

(** X4. The country selector offers every country of the data set
    exactly once, in ascending string order, and nothing else; and
    whichever option is picked, the latest record of that country
    exists, so a selection never runs into the missing-country
    failure. *)
Theorem country_options_spec (df : list row) :
  NoDup (country_options df) ∧
  StronglySorted str_le (country_options df) ∧
  (∀ c, c ∈ country_options df ↔ Exists (λ r, Country r = c) df) ∧
  (∀ pos c, selectbox (country_options df) pos = Some c →
     ∃ r, latest_of df c = Ok r ∧ Country r = c).
Proof.
  split; [|split; [|split]].
  - unfold country_options. rewrite sorted_perm. apply unique_NoDup.
  - apply sorted_sorted.
  - apply country_options_elem_of.
  - intros pos c Hsel. unfold selectbox in Hsel.
    apply list_elem_of_lookup_2 in Hsel.
    apply country_options_elem_of in Hsel.
    destruct (latest_of_cases df c) as [[Hno _]|[_ [r Hr]]].
    + exfalso. apply Exists_exists in Hsel as (r & Hin & Hc).
      rewrite Forall_forall in Hno. by apply (Hno r).
    + exists r. split; [done|]. by apply latest_of_Ok in Hr as (_ & ? & _).
Qed.

(** ** Missing indicators *)

(** A comprehension either finds every key, or raises at the first key
    the source lacks. *)
Lemma dict_comp_cases (src : gmap string cell) (fs : list string) : ∀ acc,
  (Forall (λ f, is_Some (src !! f)) fs ∧ ∃ d, dict_comp src fs acc = Ok d)
  ∨ (∃ pre f post,
       fs = pre ++ f :: post ∧
       Forall (λ f, is_Some (src !! f)) pre ∧
       src !! f = None ∧
       dict_comp src fs acc = Raise (KeyError f)).
Proof.
  induction fs as [|f fs IH]; intros acc; simpl.
  - left. split; [constructor|by exists acc].
  - destruct (src !! f) as [v|] eqn:Hf.
    + destruct (IH (<[f:=v]> acc))
        as [[Hall Hd]|(pre & f' & post & -> & Hpre & Hf' & Hd)].
      * left. split; [|done]. constructor; [by rewrite Hf|done].
      * right. exists (f :: pre), f', post.
        split; [done|]. split; [|done].
        constructor; [by rewrite Hf|done].
    + right. exists [], f, fs. split; [done|]. split; [constructor|done].
Qed.

(** The missing key of a list is determined by the present ones before
    it. *)
Lemma first_missing_unique (src : gmap string cell)
    (pre pre' : list string) (f f' : string) (post post' : list string) :
  pre ++ f :: post = pre' ++ f' :: post' →
  Forall (λ k, is_Some (src !! k)) pre → src !! f = None →
  Forall (λ k, is_Some (src !! k)) pre' → src !! f' = None →
  f = f'.
Proof.
  revert pre'. induction pre as [|a pre IH]; intros [|a' pre'] Heq Hp Hf Hp' Hf';
    simpl in Heq; injection Heq as -> Heq.
  - done.
  - apply Forall_cons in Hp' as [[v Hv] _]. congruence.
  - apply Forall_cons in Hp as [[v Hv] _]. congruence.
  - apply Forall_cons in Hp as [_ Hp]. apply Forall_cons in Hp' as [_ Hp'].
    by apply (IH pre').
Qed.

Lemma build_features_cases (latest : gmap string cell) (t g : Q) :
  (Forall (λ k, is_Some (latest !! k)) RISK_FEATURES ∧
     ∃ inputs, build_features latest t g = Ok inputs)
  ∨ (∃ pre f post,
       RISK_FEATURES = pre ++ f :: post ∧
       Forall (λ k, is_Some (latest !! k)) pre ∧
       latest !! f = None ∧
       build_features latest t g = Raise (KeyError f)).
Proof.
  destruct (dict_comp_cases latest RISK_FEATURES ∅)
    as [[Hall _]|(pre & f & post & Hsplit & Hpre & Hf & Hd)].
  - left. split; [done|].
    assert (is_Some (latest !! "Avg_Temp")) as [avg Havg].
    { rewrite Forall_forall in Hall. apply Hall.
      unfold RISK_FEATURES. rewrite !elem_of_cons. tauto. }
    assert (is_Some (latest !! "GDP_current_US")) as [gdp Hgdp].
    { rewrite Forall_forall in Hall. apply Hall.
      unfold RISK_FEATURES. rewrite !elem_of_cons. tauto. }
    destruct (build_features_ok latest t g avg gdp Hall Havg Hgdp)
      as (r0 & y0 & _ & _ & ->).
    by eexists.
  - right. exists pre, f, post. repeat (split; [done|]).
    unfold build_features. by rewrite Hd.
Qed.

(** X5. The feature derivation raises exactly when the record lacks
    one of the eleven risk indicators, and the exception is the
    [KeyError] of the first missing one in the order of
    RISK_FEATURES; the three yield indicators and the four in-place
    updates never raise on their own. *)
Theorem build_features_raises_iff (latest : gmap string cell) (t g : Q) (e : exn) :
  build_features latest t g = Raise e ↔
  ∃ pre f post,
    RISK_FEATURES = pre ++ f :: post ∧
    Forall (λ k, is_Some (latest !! k)) pre ∧
    latest !! f = None ∧
    e = KeyError f.
Proof.
  destruct (build_features_cases latest t g)
    as [[Hall [inputs ->]]|(pre & f & post & Hsplit & Hpre & Hf & ->)].
  - split; [done|].
    intros (pre & f & post & Hsplit & _ & Hf & _).
    rewrite Forall_forall in Hall.
    destruct (Hall f) as [v Hv]; [|congruence].
    rewrite Hsplit. apply elem_of_app. right. apply list_elem_of_here.
  - split.
    + intros [= <-]. by exists pre, f, post.
    + intros (pre' & f' & post' & Hsplit' & Hpre' & Hf' & ->).
      do 2 f_equal.
      apply (first_missing_unique latest pre pre' f f' post post');
        try done. by rewrite <- Hsplit, <- Hsplit'.
Qed.

(** X6. When the data preparation fails the run stops there with the
    same exception and calls no model; and it fails in two ways only:
    the [IndexError] of a country without rows, or the [KeyError] of a
    risk indicator that the latest record lacks. *)
Theorem data_prep_failure_no_model_call (md : models) (df : list row)
    (country : string) (t g : Q) (log : list call) (e : exn) :
  data_prep df country t g = Raise e →
  script md df country t g log = (Raise e, log) ∧
  (e = IndexError ∧ Forall (λ r, Country r ≠ country) df
   ∨ ∃ r f, latest_of df country = Ok r ∧ f ∈ RISK_FEATURES ∧
       cells r !! f = None ∧ e = KeyError f).
Proof.
  intros Hprep. split; [by apply script_prep_raise|].
  unfold data_prep in Hprep.
  destruct (latest_of_cases df country) as [[Hno Hr]|[_ [r Hr]]];
    rewrite Hr in Hprep; simpl in Hprep.
  - left. by injection Hprep as <-.
  - right. exists r.
    destruct (build_features_cases (cells r) t g)
      as [[_ [inputs Hb]]|(pre & f & post & Hsplit & _ & Hf & Hb)];
      rewrite Hb in Hprep; simpl in Hprep; [done|].
    injection Hprep as <-.
    exists f. split; [done|]. split; [|done].
    rewrite Hsplit. apply elem_of_app. right. apply list_elem_of_here.
Qed.

Lemma data_prep_failure_no_model_call_witness :
  script (mock_models 0.7 3.1) incomplete_df "Kenya" 1.5 0 []
    = (Raise (KeyError "Inflation"), []) ∧
  (KeyError "Inflation" = IndexError ∧
     Forall (λ r, Country r ≠ "Kenya") incomplete_df
   ∨ ∃ r f, latest_of incomplete_df "Kenya" = Ok r ∧ f ∈ RISK_FEATURES ∧
       cells r !! f = None ∧ KeyError "Inflation" = KeyError f).
Proof.
  apply (data_prep_failure_no_model_call (mock_models 0.7 3.1)
           incomplete_df "Kenya" 1.5 0 [] (KeyError "Inflation")).
  reflexivity.
Defined.

(** ** Shape of the feature vectors *)

(** Both vectors, key by key: the record restricted to the model's
    features, with the shock applied. *)
Lemma build_features_lookup (latest : gmap string cell) (t g : Q)
    (ri yi : gmap string cell) :
  build_features latest t g = Ok (ri, yi) →
  Forall (λ k, is_Some (latest !! k)) RISK_FEATURES ∧
  ∀ k,
    ri !! k = (if decide (k ∈ RISK_FEATURES)
               then shocked t g k <$> latest !! k else None) ∧
    yi !! k = (if decide (k ∈ YIELD_FEATURES)
               then shocked t g k <$> latest !! k else None).
Proof.
  intros Hb.
  destruct (build_features_cases latest t g)
    as [[Hall _]|(pre & f & post & _ & _ & _ & Hr)]; [|congruence].
  split; [done|].
  assert (is_Some (latest !! "Avg_Temp")) as [avg Havg].
  { rewrite Forall_forall in Hall. apply Hall.
    unfold RISK_FEATURES. rewrite !elem_of_cons. tauto. }
  assert (is_Some (latest !! "GDP_current_US")) as [gdp Hgdp].
  { rewrite Forall_forall in Hall. apply Hall.
    unfold RISK_FEATURES. rewrite !elem_of_cons. tauto. }
  destruct (build_features_ok latest t g avg gdp Hall Havg Hgdp)
    as (r0 & y0 & Hr0 & Hy0 & Hb').
  rewrite Hb in Hb'. injection Hb' as -> ->.
  assert ("GDP_current_US" ∈ RISK_FEATURES ∧ "Avg_Temp" ∈ RISK_FEATURES ∧
          "GDP_current_US" ∈ YIELD_FEATURES ∧ "Avg_Temp" ∈ YIELD_FEATURES)
    as (Hg1 & Ha1 & Hg2 & Ha2).
  { unfold RISK_FEATURES, YIELD_FEATURES. rewrite !elem_of_cons. tauto. }
  intros k. unfold shocked.
  destruct (decide (k = "GDP_current_US")) as [->|Hng].
  { rewrite !lookup_insert_eq, !decide_True, Hgdp by done. done. }
  rewrite !(lookup_insert_ne _ "GDP_current_US" k) by done.
  destruct (decide (k = "Avg_Temp")) as [->|Hna].
  { rewrite !lookup_insert_eq, !decide_True, Havg by done. done. }
  rewrite !(lookup_insert_ne _ "Avg_Temp" k) by done.
  rewrite (dict_comp_lookup _ _ _ _ Hr0 k), (dict_comp_lookup _ _ _ _ Hy0 k).
  rewrite lookup_empty.
  split; case_decide; try done; by destruct (latest !! k).
Qed.

Lemma RISK_FEATURES_NoDup : NoDup RISK_FEATURES.
Proof. apply (bool_decide_unpack _). vm_compute. exact I. Qed.

Lemma YIELD_FEATURES_NoDup : NoDup YIELD_FEATURES.
Proof. apply (bool_decide_unpack _). vm_compute. exact I. Qed.

Lemma feature_vectors_dom (latest : gmap string cell) (t g : Q)
    (ri yi : gmap string cell) :
  build_features latest t g = Ok (ri, yi) →
  dom ri = list_to_set RISK_FEATURES ∧ dom yi = list_to_set YIELD_FEATURES.
Proof.
  intros Hb. apply build_features_lookup in Hb as [Hall Hlk].
  rewrite Forall_forall in Hall. split.
  - apply set_eq. intros k.
    rewrite elem_of_dom, elem_of_list_to_set, (proj1 (Hlk k)).
    case_decide as Hin.
    + destruct (Hall k Hin) as [v ->]. simpl. split; [done|by eexists].
    + split; [by intros [? ?]|done].
  - apply set_eq. intros k.
    rewrite elem_of_dom, elem_of_list_to_set, (proj2 (Hlk k)).
    case_decide as Hin.
    + destruct (Hall k (YIELD_FEATURES_sub k Hin)) as [v ->].
      simpl. split; [done|by eexists].
    + split; [by intros [? ?]|done].
Qed.

(** X7. Whenever the derivation succeeds, the risk vector has exactly
    the eleven risk features as keys, the yield vector exactly the
    three yield features, and the yield vector agrees with the risk
    vector on each of its keys: both models are fed the same scenario. *)
Theorem feature_vectors_shape (latest : gmap string cell) (t g : Q)
    (ri yi : gmap string cell) :
  build_features latest t g = Ok (ri, yi) →
  dom ri = list_to_set RISK_FEATURES ∧
  dom yi = list_to_set YIELD_FEATURES ∧
  size ri = 11%nat ∧ size yi = 3%nat ∧
  ∀ f, f ∈ YIELD_FEATURES → yi !! f = ri !! f.
Proof.
  intros Hb.
  destruct (feature_vectors_dom _ _ _ _ _ Hb) as [Hdr Hdy].
  apply build_features_lookup in Hb as [Hall Hlk].
  split; [done|]. split; [done|].
  split; [|split].
  - rewrite <- size_dom, Hdr.
    by rewrite (size_list_to_set _ RISK_FEATURES_NoDup).
  - rewrite <- size_dom, Hdy.
    by rewrite (size_list_to_set _ YIELD_FEATURES_NoDup).
  - intros f Hf. rewrite (proj1 (Hlk f)), (proj2 (Hlk f)).
    by rewrite !decide_True by (done || by apply YIELD_FEATURES_sub).
Qed.

Lemma feature_vectors_shape_witness :
  ∃ ri yi,
    build_features (sample_cells 20 100000000000) 1.5 15 = Ok (ri, yi) ∧
    dom ri = list_to_set RISK_FEATURES ∧
    dom yi = list_to_set YIELD_FEATURES ∧
    size ri = 11%nat ∧ size yi = 3%nat ∧
    ∀ f, f ∈ YIELD_FEATURES → yi !! f = ri !! f.
Proof.
  eexists _, _. split; [reflexivity|].
  apply (feature_vectors_shape (sample_cells 20 100000000000) 1.5 15).
  reflexivity.
Defined.

(** ** Model calls *)

Lemma data_prep_Ok_inv (df : list row) (country : string) (t g : Q)
    (risk_df yield_df : list (gmap string cell)) :
  data_prep df country t g = Ok (risk_df, yield_df) →
  ∃ r ri yi,
    latest_of df country = Ok r ∧
    build_features (cells r) t g = Ok (ri, yi) ∧
    risk_df = [ri] ∧ yield_df = [yi].
Proof.
  unfold data_prep.
  destruct (latest_of df country) as [r|]; [|done]. simpl.
  destruct (build_features (cells r) t g) as [[ri yi]|] eqn:Hb; [|done].
  simpl. intros [= <- <-]. by exists r, ri, yi.
Qed.

(** The second column of the first row, when there is one. *)
Lemma index_0_1 (proba : list (list Q)) :
  index proba 0 ≫= (λ r, index r 1) =
    match proba !! 0%nat ≫= (.!! 1%nat) with
    | Some p => Ok p
    | None => Raise IndexError
    end.
Proof.
  unfold index. destruct (proba !! 0%nat) as [r|]; [|done]. simpl.
  by destruct (r !! 1%nat).
Qed.

Lemma predictions_index_raise md risk_df yield_df t g log proba :
  predict_proba md risk_df = Ok proba →
  proba !! 0%nat ≫= (.!! 1%nat) = None →
  predictions md risk_df yield_df t g log
    = (Raise IndexError, log ++ [PredictProba risk_df]).
Proof.
  intros Hp Hnone. pose proof (index_0_1 proba) as Hi.
  rewrite Hnone in Hi.
  unfold predictions, call_predict_proba, lift, mbind, M_bind.
  rewrite Hp. unfold mbind, result_bind in Hi.
  destruct (index proba 0) as [r|]; [|by injection Hi as ->].
  destruct (index r 1); [done|by injection Hi as ->].
Qed.

Lemma predictions_yield_empty md risk_df yield_df t g log proba p :
  predict_proba md risk_df = Ok proba →
  proba !! 0%nat ≫= (.!! 1%nat) = Some p →
  predict md yield_df = Ok [] →
  predictions md risk_df yield_df t g log
    = (Raise IndexError, log ++ [PredictProba risk_df; Predict yield_df]).
Proof.
  intros Hp Hsome Hy.
  unfold predictions, call_predict_proba, call_predict, lift, mbind, M_bind,
    index.
  rewrite Hp.
  destruct (proba !! 0%nat) as [r|]; [|done]. simpl in Hsome.
  rewrite Hsome, Hy. simpl. by rewrite <- app_assoc.
Qed.

(** The ways the Predictions tab can go. *)
Lemma predictions_cases md risk_df yield_df t g log :
  (∃ e, risk_prob_of md risk_df = Raise e ∧
        predictions md risk_df yield_df t g log
          = (Raise e, log ++ [PredictProba risk_df]))
  ∨ (∃ p, risk_prob_of md risk_df = Ok p ∧
       ((∃ e shown,
           predictions md risk_df yield_df t g log
             = (Raise e,
                log ++ PredictProba risk_df :: Predict yield_df :: shown) ∧
           model_calls shown = [])
        ∨ (∃ o,
             predictions md risk_df yield_df t g log
               = (Ok o,
                  log ++ PredictProba risk_df :: Predict yield_df ::
                         widgets o t g) ∧
             out_risk_df o = risk_df ∧ out_yield_df o = yield_df))).
Proof.
  unfold risk_prob_of.
  destruct (predict_proba md risk_df) as [proba|e] eqn:Hp.
  2:{ left. exists e. split; [done|]. by apply predictions_risk_raise. }
  simpl. rewrite (index_0_1 proba).
  destruct (proba !! 0%nat ≫= (.!! 1%nat)) as [p|] eqn:Hidx.
  2:{ left. exists IndexError. split; [done|].
      by apply (predictions_index_raise _ _ _ _ _ _ proba). }
  right. exists p. split; [done|].
  assert (∃ proba0, index proba 0 = Ok proba0 ∧ index proba0 1 = Ok p)
    as (proba0 & H0 & H1).
  { unfold index. destruct (proba !! 0%nat) as [r|]; [|done].
    simpl in Hidx. exists r. by rewrite Hidx. }
  destruct (predict md yield_df) as [yhat|e] eqn:Hy.
  2:{ left. exists e, []. split; [|done].
      by apply (predictions_yield_raise _ _ _ _ _ _ proba proba0 p). }
  destruct yhat as [|y yhat].
  { left. exists IndexError, []. split; [|done].
    by apply (predictions_yield_empty _ _ _ _ _ _ proba p). }
  rewrite (predictions_answered md risk_df yield_df t g log
             proba proba0 p (y :: yhat) y Hp H0 H1 Hy eq_refl).
  destruct (Qleb 0 p && Qleb p 1).
  - right.
    by exists {| out_risk_df := risk_df; out_yield_df := yield_df;
                 out_risk_prob := p; out_yield_pred := y;
                 out_risk_label := risk_label p t g;
                 out_color := color (risk_label p t g) |}.
  - left. by exists StreamlitAPIException,
      [Markdown (risk_label p t g) (color (risk_label p t g))].
Qed.

(** X8. The model calls of a run follow one protocol.  A failing
    preparation leads to no call at all.  Otherwise the frames are one
    row each, with exactly the eleven risk features and the three
    yield features as keys; the classifier is called first, on the risk
    frame; if no probability comes out of its answer this is the only
    call; else the regressor is called next, on the yield frame, and
    what follows are widgets only.  A run that returns has made both
    calls on the frames it reports and has shown its outcome. *)
Theorem model_call_protocol (md : models) (df : list row)
    (country : string) (t g : Q) (log : list call) :
  ∃ calls,
    (script md df country t g log).2 = log ++ calls ∧
    match data_prep df country t g with
    | Raise _ => calls = []
    | Ok inputs =>
        (∃ ri yi, inputs = ([ri], [yi]) ∧
                  dom ri = list_to_set RISK_FEATURES ∧
                  dom yi = list_to_set YIELD_FEATURES) ∧
        match risk_prob_of md inputs.1 with
        | Raise _ => calls = [PredictProba inputs.1]
        | Ok _ =>
            ∃ shown,
              calls = PredictProba inputs.1 :: Predict inputs.2 :: shown ∧
              model_calls shown = []
        end ∧
        ∀ o, (script md df country t g log).1 = Ok o →
          calls = PredictProba (out_risk_df o) :: Predict (out_yield_df o) ::
                    widgets o t g
    end.
Proof.
  destruct (data_prep df country t g) as [[risk_df yield_df]|e] eqn:Hprep.
  2:{ exists []. rewrite (script_prep_raise _ _ _ _ _ _ _ Hprep). simpl.
      by rewrite app_nil_r. }
  rewrite (script_prep_ok _ _ _ _ _ _ _ _ Hprep).
  apply data_prep_Ok_inv in Hprep as (r & ri & yi & _ & Hb & -> & ->).
  apply feature_vectors_dom in Hb as [Hdr Hdy]. simpl.
  destruct (predictions_cases md [ri] [yi] t g log)
    as [(e & -> & ->)|(p & -> & [(e & shown & -> & Hshown)|(o & -> & Hor & Hoy)])];
    simpl.
  - exists [PredictProba [ri]]. split; [done|].
    split; [by exists ri, yi|]. done.
  - exists (PredictProba [ri] :: Predict [yi] :: shown). split; [done|].
    split; [by exists ri, yi|]. split; [by exists shown|done].
  - exists (PredictProba [ri] :: Predict [yi] :: widgets o t g).
    split; [done|]. split; [by exists ri, yi|]. split.
    + by exists (widgets o t g).
    + intros o' [= <-]. by rewrite Hor, Hoy.
Qed.

(** X9. A malformed model answer ends the run with [IndexError]: a
    probability matrix without a first row or without a second column
    stops it after the classifier call, before the regressor is
    called; an empty prediction vector stops it after both calls. *)
Theorem malformed_model_output (md : models) (df : list row)
    (country : string) (t g : Q) (log : list call)
    (risk_df yield_df : list (gmap string cell)) :
  data_prep df country t g = Ok (risk_df, yield_df) →
  (∀ proba,
     predict_proba md risk_df = Ok proba →
     proba !! 0%nat ≫= (.!! 1%nat) = None →
     script md df country t g log
       = (Raise IndexError, log ++ [PredictProba risk_df])) ∧
  (∀ proba p,
     predict_proba md risk_df = Ok proba →
     proba !! 0%nat ≫= (.!! 1%nat) = Some p →
     predict md yield_df = Ok [] →
     script md df country t g log
       = (Raise IndexError, log ++ [PredictProba risk_df; Predict yield_df])).
Proof.
  intros Hprep. rewrite (script_prep_ok _ _ _ _ _ _ _ _ Hprep). split.
  - intros proba. apply predictions_index_raise.
  - intros proba p. apply predictions_yield_empty.
Qed.

Lemma malformed_model_output_witness :
  ∃ risk_df yield_df,
    data_prep sample_df "Kenya" 1.5 0 = Ok (risk_df, yield_df) ∧
    script (one_class_models 3.1) sample_df "Kenya" 1.5 0 []
      = (Raise IndexError, [PredictProba risk_df]) ∧
    script (empty_yield_models 0.7) sample_df "Kenya" 1.5 0 []
      = (Raise IndexError, [PredictProba risk_df; Predict yield_df]).
Proof.
  eexists _, _. split; [reflexivity|]. split.
  - eapply (proj1 (malformed_model_output (one_class_models 3.1)
                     sample_df "Kenya" 1.5 0 [] _ _ eq_refl));
      reflexivity.
  - eapply (proj2 (malformed_model_output (empty_yield_models 0.7)
                     sample_df "Kenya" 1.5 0 [] _ _ eq_refl));
      reflexivity.
Defined.

(** ** Labels and slider positions *)

Lemma risk_label_inv (p t g : Q) :
  (risk_label p t g = HIGH_RISK → high_risk_cond p t) ∧
  (risk_label p t g = LOW_RISK → low_risk_cond p t g).
Proof.
  unfold risk_label.
  destruct (Qgeb p 0.65 && Qgtb t 0) eqn:Eh.
  { split; [|done]. intros _. by apply high_test_iff. }
  destruct (Qleb p 0.35 && Qleb t 0 && Qgeb g 10) eqn:El.
  { split; [done|]. intros _. by apply low_test_iff. }
  done.
Qed.






(** ** Severity is monotone *)

(** X11. For a fixed scenario the label never gets milder when the
    probability grows, and more generally severity is monotone in all
    three inputs: it does not decrease when the probability or the
    temperature shift grows or the GDP change shrinks. *)
Theorem severity_monotone (p p' t t' g g' : Q) :
  p <= p' → t <= t' → g' <= g →
  (severity (risk_label p t g) ≤ severity (risk_label p' t' g'))%Z.
Proof.
  intros Hp Ht Hg.
  destruct (risk_label_inv p t g) as [Hh Hl].
  destruct (risk_label_inv p' t' g') as [Hh' Hl'].
  destruct (risk_label p t g) eqn:E; destruct (risk_label p' t' g') eqn:E';
    simpl; try lia; exfalso.
  - (* HIGH_RISK, then LOW_RISK *)
    destruct (Hh eq_refl) as [H1 H2]. destruct (Hl' eq_refl) as (H3 & H4 & H5).
    lra.
  - (* HIGH_RISK, then STABLE *)
    destruct (Hh eq_refl) as [H1 H2].
    assert (high_risk_cond p' t') as Hc by (split; lra).
    rewrite (risk_label_high p' t' g' Hc) in E'. discriminate.
  - (* STABLE, then LOW_RISK *)
    destruct (Hl' eq_refl) as (H3 & H4 & H5).
    assert (low_risk_cond p t g) as Hc by (repeat split; lra).
    assert (¬ high_risk_cond p t) as Hn by (intros [? ?]; lra).
    rewrite (risk_label_low p t g Hn Hc) in E. discriminate.
Qed.

Lemma severity_monotone_witness :
  (severity (risk_label 0.2 (-1) 15) ≤ severity (risk_label 0.7 1.5 0))%Z.
Proof.
  apply (severity_monotone 0.2 0.7 (-1) 1.5 15 0);
    unfold Qle; simpl; lia.
Defined.

(** ** Runs that cannot fail *)

(** X14. On a data set whose rows all carry the eleven risk
    indicators, with a classifier that answers at least one row of at
    least two columns whose second entry lies in [0,1], and a regressor
    that answers at least one value, no choice of the three sidebar
    widgets makes the run raise: it returns an outcome after exactly
    the two model calls and shows it. *)
Theorem dashboard_run_returns (md : models) (df : list row)
    (country_pos temp_pos gdp_pos : option nat) (country : string)
    (run : M outcome) (log : list call) :
  Forall (λ r, Forall (λ f, is_Some (cells r !! f)) RISK_FEATURES) df →
  (∀ X, ∃ p0 p1 cols rows,
     predict_proba md X = Ok ((p0 :: p1 :: cols) :: rows) ∧
     0 <= p1 ∧ p1 <= 1) →
  (∀ X, ∃ y ys, predict md X = Ok (y :: ys)) →
  selectbox (country_options df) country_pos = Some country →
  app md df country temp_pos gdp_pos = Some run →
  ∃ o t g,
    temp_delta_slider temp_pos = Some t ∧
    gdp_delta_slider gdp_pos = Some g ∧
    run log
      = (Ok o, log ++ PredictProba (out_risk_df o) ::
                      Predict (out_yield_df o) ::
                      widgets o t (inject_Z g)).
Proof.
  intros Hdf Hrisk Hyield Hsel Happ.
  unfold app in Happ.
  destruct (temp_delta_slider temp_pos) as [t|]; [|done].
  destruct (gdp_delta_slider gdp_pos) as [g|]; [|done].
  injection Happ as <-.
  assert (Exists (λ r, Country r = country) df) as Hex.
  { apply country_options_elem_of. unfold selectbox in Hsel.
    by apply list_elem_of_lookup_2 in Hsel. }
  destruct (latest_of_cases df country) as [[Hno _]|[_ [r Hr]]].
  { exfalso. apply Exists_exists in Hex as (r & Hin & Hc).
    rewrite Forall_forall in Hno. by apply (Hno r). }
  pose proof (latest_of_Ok _ _ _ Hr) as (Hin & _ & _).
  rewrite Forall_forall in Hdf. pose proof (Hdf r Hin) as Hall.
  destruct (build_features_cases (cells r) t (inject_Z g))
    as [[_ [[ri yi] Hb]]|(pre & f & post & Hsplit & _ & Hf & _)].
  2:{ exfalso. rewrite Forall_forall in Hall.
      destruct (Hall f) as [v Hv]; [|congruence].
      rewrite Hsplit. apply elem_of_app. right. apply list_elem_of_here. }
  assert (data_prep df country t (inject_Z g) = Ok ([ri], [yi])) as Hprep.
  { unfold data_prep. rewrite Hr. simpl. by rewrite Hb. }
  destruct (Hrisk [ri]) as (p0 & p1 & cols & rows & Hp & Hp0 & Hp1).
  destruct (Hyield [yi]) as (y & ys & Hy).
  rewrite (script_prep_ok _ _ _ _ _ _ _ _ Hprep).
  rewrite (predictions_ok md [ri] [yi] t (inject_Z g) log
             ((p0 :: p1 :: cols) :: rows) (p0 :: p1 :: cols) p1 (y :: ys) y
             Hp eq_refl eq_refl Hy eq_refl Hp0 Hp1).
  by exists {| out_risk_df := [ri]; out_yield_df := [yi];
               out_risk_prob := p1; out_yield_pred := y;
               out_risk_label := risk_label p1 t (inject_Z g);
               out_color := color (risk_label p1 t (inject_Z g)) |}, t, g.
Qed.

Lemma dashboard_run_returns_witness :
  ∃ o t g,
    temp_delta_slider (Some 7%nat) = Some t ∧
    gdp_delta_slider (Some 7%nat) = Some g ∧
    script (mock_models 0.7 3.1) sample_df "Kenya" 1.50 (inject_Z 15) []
      = (Ok o, [] ++ PredictProba (out_risk_df o) ::
                     Predict (out_yield_df o) ::
                     widgets o t (inject_Z g)).
Proof.
  apply (dashboard_run_returns (mock_models 0.7 3.1) sample_df
           None (Some 7%nat) (Some 7%nat) "Kenya").
  - apply (bool_decide_unpack _). vm_compute. exact I.
  - intros X. eexists _, _, _, _. split; [reflexivity|].
    split; by apply Qle_bool_iff.
  - intros X. by eexists _, _.
  - reflexivity.
  - reflexivity.
Defined.
